(** * Verification model of the style-guide checker (style-guidelines)

    Shallow embedding of the rule-matching engine:
    - [Text]: Python [str] as a list of code points, with the [str] methods used.
    - [Regex]: the subset of Python's [re] used by the sources (pattern parser,
      backtracking matcher, [re.sub], [re.finditer], [re.match]).
    - [Corrections]: [DocumentProcessor.apply_style_corrections] and [chunk_text]
      of src/app/processor/document_processor.py.
    - [Extractor]: [RuleExtractor] of src/app/processor/rule_extractor.py.
    - [Pipeline]: ingestion, retrieval and rule application of both processors. *)

From Stdlib Require Import List Bool Arith ZArith Lia String Ascii QArith.
From Stdlib Require Import Permutation Sorted QArith.Qminmax Lqa.
Import ListNotations.

Open Scope Z_scope.

(** ** Text: Python strings as code-point lists *)
Module Text.

Definition char := Z.
Definition text := list char.

(** UTF-8 decoding of a Rocq string literal into code points, so that the
    pattern and replacement strings of the sources can be written verbatim. *)
Definition byte_of (a : ascii) : Z := Z.of_nat (nat_of_ascii a).

Fixpoint u (s : string) : text :=
  match s with
  | EmptyString => []
  | String a rest =>
      let b := byte_of a in
      if b <? 128 then b :: u rest
      else if b <? 224 then
        match rest with
        | String a2 rest2 => (Z.land b 31 * 64 + Z.land (byte_of a2) 63) :: u rest2
        | EmptyString => [b]
        end
      else
        match rest with
        | String a2 (String a3 rest3) =>
            (Z.land b 15 * 4096 + Z.land (byte_of a2) 63 * 64
               + Z.land (byte_of a3) 63) :: u rest3
        | _ => [b]
        end
  end.

(** [dq] writes a double quote inside a pattern: the backquote stands for it. *)
Definition dq (t : text) : text := map (fun c => if c =? 96 then 34 else c) t.

(** [str.isspace] (and the [\s] class of [re] on [str] patterns). *)
Definition is_space (c : char) : bool :=
  ((9 <=? c) && (c <=? 13)) || ((28 <=? c) && (c <=? 32)) || (c =? 133)
  || (c =? 160) || (c =? 5760) || ((8192 <=? c) && (c <=? 8202))
  || (c =? 8232) || (c =? 8233) || (c =? 8239) || (c =? 8287) || (c =? 12288).

(** ASCII classification: the model is exact on texts whose letters and
    digits are ASCII (non-ASCII letters are not word characters here). *)
Definition is_digit (c : char) : bool := (48 <=? c) && (c <=? 57).
Definition is_upper (c : char) : bool := (65 <=? c) && (c <=? 90).
Definition is_lower (c : char) : bool := (97 <=? c) && (c <=? 122).
Definition is_word (c : char) : bool :=
  is_digit c || is_upper c || is_lower c || (c =? 95).

Definition lower_c (c : char) : char := if is_upper c then c + 32 else c.
Definition upper_c (c : char) : char := if is_lower c then c - 32 else c.

(** [str.lower], [str.upper] *)
Definition lower (t : text) : text := map lower_c t.
Definition upper (t : text) : text := map upper_c t.

Fixpoint text_eqb (a b : text) : bool :=
  match a, b with
  | [], [] => true
  | x :: a', y :: b' => (x =? y) && text_eqb a' b'
  | _, _ => false
  end.

Fixpoint prefixb (p t : text) : bool :=
  match p, t with
  | [], _ => true
  | x :: p', y :: t' => (x =? y) && prefixb p' t'
  | _, [] => false
  end.

(** [str.find]: lowest index of [p] in [t], [None] for Python's [-1]. *)
Fixpoint find_from (p t : text) (i : nat) : option nat :=
  if prefixb p t then Some i
  else match t with
       | [] => None
       | _ :: t' => find_from p t' (S i)
       end.

Definition find (t p : text) : option nat := find_from p t 0.

(** [p in t] *)
Definition contains (t p : text) : bool :=
  match find t p with Some _ => true | None => false end.

Fixpoint lstrip (t : text) : text :=
  match t with
  | c :: t' => if is_space c then lstrip t' else t
  | [] => []
  end.

(** [str.strip()] *)
Definition strip (t : text) : text := rev (lstrip (rev (lstrip t))).

(** [t[i:j]] for [0 <= i <= j]. *)
Definition slice (t : text) (i j : nat) : text := firstn (j - i) (skipn i t).

(** [str.split()] without arguments: maximal runs of non-whitespace. *)
Fixpoint split_ws_aux (t : text) (cur : text) : list text :=
  match t with
  | [] => match cur with [] => [] | _ => [rev cur] end
  | c :: t' =>
      if is_space c then
        match cur with
        | [] => split_ws_aux t' []
        | _ => rev cur :: split_ws_aux t' []
        end
      else split_ws_aux t' (c :: cur)
  end.

Definition split_ws (t : text) : list text := split_ws_aux t [].

End Text.

Import Text.

(** ** Regex: the subset of Python's [re] used by the sources *)
Module Regex.

Inductive citem :=
| CChar (c : char)
| CRange (lo hi : char)
| CDigit
| CSpace
| CWord.

Inductive re :=
| REps
| RChar (c : char)
| RAny                                  (** [.]: any character but newline *)
| RClass (neg : bool) (items : list citem)
| RWordB                                (** [\b] *)
| RBol                                  (** [^] *)
| REol                                  (** [$] *)
| RSeq (a b : re)
| RAlt (a b : re)
| RStar (greedy : bool) (a : re)
| RGroup (n : nat) (a : re)
| RNegLook (a : re).                    (** [(?!...)] *)

Record flags := { icase : bool; multiline : bool }.

(** A compiled pattern: the expression, the global inline flags, the named
    groups and the number of groups. *)
Record pattern := { p_re : re; p_flags : flags; p_names : list (text * nat);
                    p_ngroups : nat }.

(** *** Parser for pattern strings *)
Record pst := { toks : list char; next_group : nat; names : list (text * nat);
                fi : bool; fm : bool }.

Definition set_toks (s : pst) (t : list char) : pst :=
  {| toks := t; next_group := next_group s; names := names s; fi := fi s; fm := fm s |}.

Definition esc_class (c : char) : option citem :=
  if c =? 100 then Some CDigit            (* \d *)
  else if c =? 115 then Some CSpace       (* \s *)
  else if c =? 119 then Some CWord        (* \w *)
  else None.

Definition esc_char (c : char) : char :=
  if c =? 110 then 10 else if c =? 116 then 9 else c.   (* \n, \t, else literal *)

(** Class body, after [[] and the optional [^], up to [\]]. *)
Fixpoint p_class (f : nat) (t : list char) (acc : list citem)
  : option (list citem * list char) :=
  match f with
  | O => None
  | S f' =>
    match t with
    | [] => None
    | c :: t' =>
      if c =? 93 then Some (rev acc, t')
      else
        let '(it, rest) :=
          if c =? 92 then
            match t' with
            | e :: t'' =>
                match esc_class e with
                | Some ci => (inl ci, t'')
                | None => (inr (esc_char e), t'')
                end
            | [] => (inr 92, [])
            end
          else (inr c, t') in
        match it with
        | inl ci => p_class f' rest (ci :: acc)
        | inr lo =>
          match rest with
          | m :: hi :: rest' =>
              if (m =? 45) && negb (hi =? 93) then
                p_class f' rest' (CRange lo hi :: acc)
              else p_class f' rest (CChar lo :: acc)
          | _ => p_class f' rest (CChar lo :: acc)
          end
        end
    end
  end.

Fixpoint p_name (f : nat) (t : list char) (acc : text) : option (text * list char) :=
  match f with
  | O => None
  | S f' =>
    match t with
    | [] => None
    | c :: t' => if c =? 62 then Some (rev acc, t') else p_name f' t' (c :: acc)
    end
  end.

(** Quantifier suffix: [*], [+], [?], each optionally lazy. *)
Definition p_quant (a : re) (t : list char) : re * list char :=
  match t with
  | q :: t' =>
    let '(greedy, t'') :=
      match t' with
      | l :: t2 => if l =? 63 then (false, t2) else (true, t')
      | [] => (true, t')
      end in
    if q =? 42 then (RStar greedy a, t'')
    else if q =? 43 then (RSeq a (RStar greedy a), t'')
    else if q =? 63 then (if greedy then RAlt a REps else RAlt REps a, t'')
    else (a, t)
  | [] => (a, t)
  end.

Fixpoint p_alt (f : nat) (s : pst) {struct f} : option (re * pst) :=
  match f with
  | O => None
  | S f' =>
    match p_seq f' s with
    | Some (r, s1) =>
      match toks s1 with
      | c :: rest =>
          if c =? 124 then
            match p_alt f' (set_toks s1 rest) with
            | Some (r2, s2) => Some (RAlt r r2, s2)
            | None => None
            end
          else Some (r, s1)
      | [] => Some (r, s1)
      end
    | None => None
    end
  end
with p_seq (f : nat) (s : pst) {struct f} : option (re * pst) :=
  match f with
  | O => None
  | S f' =>
    match toks s with
    | [] => Some (REps, s)
    | c :: _ =>
      if (c =? 124) || (c =? 41) then Some (REps, s)
      else
        match p_atom f' s with
        | Some (a, s1) =>
          let '(aq, t2) := p_quant a (toks s1) in
          match p_seq f' (set_toks s1 t2) with
          | Some (b, s2) => Some (RSeq aq b, s2)
          | None => None
          end
        | None => None
        end
    end
  end
with p_atom (f : nat) (s : pst) {struct f} : option (re * pst) :=
  match f with
  | O => None
  | S f' =>
    match toks s with
    | [] => None
    | c :: t =>
      if c =? 40 then                                   (* ( *)
        let close (r : re) (s1 : pst) :=
          match toks s1 with
          | d :: t1 => if d =? 41 then Some (r, set_toks s1 t1) else None
          | [] => None
          end in
        match t with
        | q :: t1 =>
          if q =? 63 then                               (* (? *)
            match t1 with
            | k :: t2 =>
              if k =? 58 then                           (* (?: *)
                match p_alt f' (set_toks s t2) with
                | Some (r, s1) => close r s1
                | None => None
                end
              else if k =? 33 then                      (* (?! *)
                match p_alt f' (set_toks s t2) with
                | Some (r, s1) => close (RNegLook r) s1
                | None => None
                end
              else if k =? 80 then                      (* (?P<name> *)
                match t2 with
                | _ :: t3 =>
                  match p_name f' t3 [] with
                  | Some (nm, t4) =>
                    let n := next_group s in
                    let s0 := {| toks := t4; next_group := S n;
                                 names := (nm, n) :: names s; fi := fi s; fm := fm s |} in
                    match p_alt f' s0 with
                    | Some (r, s1) => close (RGroup n r) s1
                    | None => None
                    end
                  | None => None
                  end
                | [] => None
                end
              else if k =? 105 then                     (* (?i) *)
                match t2 with
                | _ :: t3 => Some (REps, {| toks := t3; next_group := next_group s;
                                           names := names s; fi := true; fm := fm s |})
                | [] => None
                end
              else if k =? 109 then                     (* (?m) *)
                match t2 with
                | _ :: t3 => Some (REps, {| toks := t3; next_group := next_group s;
                                           names := names s; fi := fi s; fm := true |})
                | [] => None
                end
              else None
            | [] => None
            end
          else
            let n := next_group s in
            let s0 := {| toks := t; next_group := S n; names := names s;
                         fi := fi s; fm := fm s |} in
            match p_alt f' s0 with
            | Some (r, s1) => close (RGroup n r) s1
            | None => None
            end
        | [] => None
        end
      else if c =? 91 then                              (* [ *)
        let '(neg, t1) := match t with
                          | h :: t' => if h =? 94 then (true, t') else (false, t)
                          | [] => (false, t)
                          end in
        match p_class f' t1 [] with
        | Some (items, t2) => Some (RClass neg items, set_toks s t2)
        | None => None
        end
      else if c =? 46 then Some (RAny, set_toks s t)     (* . *)
      else if c =? 94 then Some (RBol, set_toks s t)     (* ^ *)
      else if c =? 36 then Some (REol, set_toks s t)     (* $ *)
      else if c =? 92 then                              (* \ *)
        match t with
        | e :: t1 =>
          if e =? 98 then Some (RWordB, set_toks s t1)
          else match esc_class e with
               | Some ci => Some (RClass false [ci], set_toks s t1)
               | None => Some (RChar (esc_char e), set_toks s t1)
               end
        | [] => None
        end
      else Some (RChar c, set_toks s t)
    end
  end.

(** [re.compile] (group 0 is the whole match, numbered groups start at 1). *)
Definition compile (src : text) : option pattern :=
  let s0 := {| toks := src; next_group := 1%nat; names := []; fi := false; fm := false |} in
  match p_alt (4 * List.length src + 10) s0 with
  | Some (r, s1) =>
      match toks s1 with
      | [] => Some {| p_re := r; p_flags := {| icase := fi s1; multiline := fm s1 |};
                      p_names := names s1; p_ngroups := next_group s1 |}
      | _ => None
      end
  | None => None
  end.

(** [flags=re.IGNORECASE] passed to [re.compile] / [re.sub]. *)
Definition with_icase (p : pattern) : pattern :=
  {| p_re := p_re p; p_flags := {| icase := true; multiline := multiline (p_flags p) |};
     p_names := p_names p; p_ngroups := p_ngroups p |}.

Definition with_multiline (p : pattern) : pattern :=
  {| p_re := p_re p; p_flags := {| icase := icase (p_flags p); multiline := true |};
     p_names := p_names p; p_ngroups := p_ngroups p |}.


(** *** Backtracking matcher (continuation passing, as [sre] explores
    alternatives: left branch first, greedy repetition longest first). *)
Definition capt := list (nat * (nat * nat)).

Section Matcher.
Variable fl : flags.
Variable inp : text.

Definition char_at (i : nat) : option char := nth_error inp i.

Definition item_ok (c : char) (it : citem) : bool :=
  match it with
  | CChar d => c =? d
  | CRange lo hi => (lo <=? c) && (c <=? hi)
  | CDigit => is_digit c
  | CSpace => is_space c
  | CWord => is_word c
  end.

Definition in_items (items : list citem) (c : char) : bool := existsb (item_ok c) items.

Definition class_ok (neg : bool) (items : list citem) (c : char) : bool :=
  let hit := if icase fl
             then in_items items c || in_items items (lower_c c) || in_items items (upper_c c)
             else in_items items c in
  if neg then negb hit else hit.

Definition char_ok (d c : char) : bool :=
  if icase fl then lower_c d =? lower_c c else d =? c.

Definition word_at (i : nat) : bool :=
  match char_at i with Some c => is_word c | None => false end.

Definition word_before (i : nat) : bool :=
  match i with O => false | S j => word_at j end.

Definition nl_before (i : nat) : bool :=
  match i with O => false | S j => match char_at j with Some c => c =? 10 | None => false end end.

Fixpoint m (r : re) (i : nat) (cp : capt) (k : nat -> capt -> option (nat * capt))
  {struct r} : option (nat * capt) :=
  match r with
  | REps => k i cp
  | RChar d =>
      match char_at i with
      | Some c => if char_ok d c then k (S i) cp else None
      | None => None
      end
  | RAny =>
      match char_at i with
      | Some c => if c =? 10 then None else k (S i) cp
      | None => None
      end
  | RClass neg items =>
      match char_at i with
      | Some c => if class_ok neg items c then k (S i) cp else None
      | None => None
      end
  | RWordB => if Bool.eqb (word_before i) (word_at i) then None else k i cp
  | RBol => if (i =? 0)%nat || (multiline fl && nl_before i) then k i cp else None
  | REol =>
      match char_at i with
      | None => k i cp
      | Some c =>
          if (c =? 10) && (multiline fl || (S i =? List.length inp)%nat)
          then k i cp else None
      end
  | RSeq a b => m a i cp (fun j c => m b j c k)
  | RAlt a b =>
      match m a i cp k with
      | Some x => Some x
      | None => m b i cp k
      end
  | RStar g a =>
      (fix loop (n i : nat) (cp : capt) {struct n} : option (nat * capt) :=
         match n with
         | O => k i cp
         | S n' =>
           if g then
             match m a i cp (fun j c => if (i <? j)%nat then loop n' j c else None) with
             | Some x => Some x
             | None => k i cp
             end
           else
             match k i cp with
             | Some x => Some x
             | None => m a i cp (fun j c => if (i <? j)%nat then loop n' j c else None)
             end
         end) (List.length inp - i)%nat i cp
  | RGroup n a => m a i cp (fun j c => k j ((n, (i, j)) :: c))
  | RNegLook a =>
      match m a i cp (fun j c => Some (j, c)) with
      | Some _ => None
      | None => k i cp
      end
  end.

(** Leftmost match starting at or after [start]; with [must_adv] an empty
    match at [start] itself is refused (the [must_advance] flag of [sre]). *)
Fixpoint search_from (r : re) (start : nat) (must_adv : bool) (n s : nat)
  : option (nat * nat * capt) :=
  match n with
  | O => None
  | S n' =>
      match m r s [] (fun j c => if must_adv && (s =? start)%nat && (j =? s)%nat
                                 then None else Some (j, c)) with
      | Some (j, c) => Some (s, j, c)
      | None => search_from r start must_adv n' (S s)
      end
  end.

Definition search (r : re) (start : nat) (must_adv : bool) : option (nat * nat * capt) :=
  search_from r start must_adv (S (List.length inp - start)) start.

End Matcher.

(** A match object: span and captures over the searched text. *)
Record mobj := { m_text : text; m_start : nat; m_end : nat; m_caps : capt }.

Fixpoint cap_lookup (n : nat) (c : capt) : option (nat * nat) :=
  match c with
  | [] => None
  | (k, sp) :: c' => if (k =? n)%nat then Some sp else cap_lookup n c'
  end.

(** [m.group(n)]: [None] for a group that did not participate. *)
Definition group (mo : mobj) (n : nat) : option text :=
  match n with
  | O => Some (slice (m_text mo) (m_start mo) (m_end mo))
  | _ => match cap_lookup n (m_caps mo) with
         | Some (i, j) => Some (slice (m_text mo) i j)
         | None => None
         end
  end.

Fixpoint name_lookup (nm : text) (l : list (text * nat)) : option nat :=
  match l with
  | [] => None
  | (x, n) :: l' => if text_eqb x nm then Some n else name_lookup nm l'
  end.

(** [m.group(name)]: [None] when the group is absent (IndexError) or did not
    participate (the value [None]). *)
Definition group_named (p : pattern) (mo : mobj) (nm : text) : option text :=
  match name_lookup nm (p_names p) with
  | Some n => group mo n
  | None => None
  end.

(** Replacement of [re.sub]: a template string (with [\1]..[\9] group
    references, an unmatched group expanding to the empty string) or a
    Python function of the match object. *)
Inductive repl :=
| Templ (t : text)
| Fn (f : mobj -> text).

Fixpoint expand (mo : mobj) (t : text) : text :=
  match t with
  | [] => []
  | b :: t1 =>
      if b =? 92 then
        match t1 with
        | d :: t' =>
            if is_digit d then
              match group mo (Z.to_nat (d - 48)) with
              | Some g => g
              | None => []
              end ++ expand mo t'
            else b :: expand mo t1
        | [] => [b]
        end
      else b :: expand mo t1
  end.

Definition apply_repl (rp : repl) (mo : mobj) : text :=
  match rp with
  | Templ t => expand mo t
  | Fn f => f mo
  end.

(** The scanning loop of [re.sub] (count = 0): non-overlapping matches from
    left to right; after an empty match the next one must advance. *)
Fixpoint sub_loop (p : pattern) (rp : repl) (t : text) (fuel pos : nat) (must_adv : bool)
  : text :=
  match fuel with
  | O => skipn pos t
  | S f =>
      match search (p_flags p) t (p_re p) pos must_adv with
      | None => skipn pos t
      | Some (s, e, c) =>
          slice t pos s
            ++ apply_repl rp {| m_text := t; m_start := s; m_end := e; m_caps := c |}
            ++ sub_loop p rp t f e (s =? e)%nat
      end
  end.

(** [pattern.sub(repl, t)] *)
Definition sub (p : pattern) (rp : repl) (t : text) : text :=
  sub_loop p rp t (2 * List.length t + 2) 0 false.

Fixpoint finditer_loop (p : pattern) (t : text) (fuel pos : nat) (must_adv : bool)
  : list mobj :=
  match fuel with
  | O => []
  | S f =>
      match search (p_flags p) t (p_re p) pos must_adv with
      | None => []
      | Some (s, e, c) =>
          {| m_text := t; m_start := s; m_end := e; m_caps := c |}
            :: finditer_loop p t f e (s =? e)%nat
      end
  end.

(** [pattern.finditer(t)] *)
Definition finditer (p : pattern) (t : text) : list mobj :=
  finditer_loop p t (2 * List.length t + 2) 0 false.

(** [pattern.match(t)]: anchored at position 0. *)
Definition rmatch (p : pattern) (t : text) : option mobj :=
  match m (p_flags p) t (p_re p) 0 [] (fun j c => Some (j, c)) with
  | Some (j, c) => Some {| m_text := t; m_start := 0; m_end := j; m_caps := c |}
  | None => None
  end.

(** A pattern that fails to compile matches nothing (no such pattern occurs
    in the sources: see [table_compiles] below). *)
Definition never : pattern :=
  {| p_re := RClass false []; p_flags := {| icase := false; multiline := false |};
     p_names := []; p_ngroups := 1 |}.

Definition pat (src : text) : pattern :=
  match compile src with Some p => p | None => never end.

(** [re.sub(src, repl, t, flags=...)] *)
Definition re_sub (icase_flag : bool) (src : text) (rp : repl) (t : text) : text :=
  let p := pat src in
  sub (if icase_flag then with_icase p else p) rp t.

End Regex.

Import Regex.

(** ** Deterministic corrections and chunking
    ([DocumentProcessor] of src/app/processor/document_processor.py) *)
Module Corrections.

(** Value of a group that always participates in its pattern. *)
Definition g (mo : mobj) (n : nat) : text :=
  match group mo n with Some t => t | None => [] end.

(** An entry of [self.corrections_map]: the pattern source and the
    replacement; [Fn] entries are the Python lambdas. *)
Definition lit (p r : string) : text * repl := (u p, Templ (u r)).

Definition mean_sd : repl :=
  Fn (fun mo => g mo 1 ++ u " (" ++ upper (g mo 2) ++ u ")").

Definition corrections_map : list (text * repl) := [
  (* Clinical Terms (ordered by specificity) *)
  lit "\btreatment[- ]emergent\s+adverse\s+event(?!\s*\([TEAE]+\))" "treatment-emergent adverse event (TEAE)";
  lit "\bserious\s+adverse\s+event(?!\s*\([SAE]+\))" "serious adverse event (SAE)";
  lit "\badverse\s+event(?!\s*\([AE]+\))" "adverse event (AE)";
  lit "\badverse\s+drug\s+reaction(?!\s*\([ADR]+\))" "adverse drug reaction (ADR)";
  lit "\binvestigational\s+product(?!\s*\([IP]+\))" "investigational product (IP)";
  lit "\bconcomitant\s+medication(?!\s*\([CM]+\))" "concomitant medication (CM)";
  lit "\bquality\s+of\s+life(?!\s*\([QoL]+\))" "quality of life (QoL)";
  (* Statistical Terms *)
  lit "\bp-value\b" "P value";
  lit "\b(\d+%?\s*)ci\b" "\1CI";
  (u "\b(mean|median)\s*\((sd|se)\)", mean_sd);
  lit "\bitt\b" "ITT";
  lit "\bpp\b" "PP";
  lit "\bodds\s+ratio(?!\s*\([OR]+\))" "odds ratio (OR)";
  lit "\bhazard\s+ratio(?!\s*\([HR]+\))" "hazard ratio (HR)";
  (u "\b(standard\s+error|mean|median)\s*\((sd|se)\)", mean_sd);
  (* Units and Numbers *)
  lit "(\d+)(\s*(?:mg|mL|L|kg|cm))\b" "\1 \2";
  lit "(\d+)\s*ml\b" "\1 mL";
  lit "(\d+)\s*l\b" "\1 L";
  lit "(\d+)\s*mg\b" "\1 mg";
  lit "(\d+)\s*kg\b" "\1 kg";
  lit "approximately\s+(\d+)" "~\1";
  lit "greater than or equal to\s*(\d+)" "≥\1";
  lit "less than or equal to\s*(\d+)" "≤\1";
  (* Document Structure *)
  lit "\bsynopsis\b" "Synopsis";
  (u "\bappendix\s+([A-Za-z])\b", Fn (fun mo => u "Appendix " ++ upper (g mo 1)));
  (u "\btable\s+(\d+)\b", Fn (fun mo => u "Table " ++ g mo 1));
  (u "\bfigure\s+(\d+)\b", Fn (fun mo => u "Figure " ++ g mo 1));
  lit "\bmaterials\s+and\s+methods\b" "Materials and Methods";
  lit "\bresults\s+and\s+discussion\b" "Results and Discussion";
  (* Study Phase *)
  lit "\bphase\s*(1|one|i)\b" "Phase 1";
  lit "\bphase\s*(2|two|ii)\b" "Phase 2";
  lit "\bphase\s*(3|three|iii)\b" "Phase 3";
  lit "\bphase\s*(4|four|iv)\b" "Phase 4";
  (* Organizations and Regulatory *)
  lit "\bfda\b" "FDA";
  lit "\bema\b" "EMA";
  lit "\birb\b" "IRB";
  lit "\biec\b" "IEC";
  lit "\bich\b" "ICH";
  lit "\bgcp\b" "GCP";
  lit "\bdaiichi\s+sankyo\b" "Daiichi Sankyo";
  (* Time Points *)
  lit "\bbase-line\b" "baseline";
  lit "\bfollow\s+up\b" "follow-up";
  lit "\bend\s+of\s+treatment(?!\s*\([EOT]+\))" "end of treatment (EOT)";
  lit "\bend\s+of\s+study(?!\s*\([EOS]+\))" "end of study (EOS)";
  lit "\bscreening\s+period\b" "Screening Period";
  lit "\btreatment\s+period\b" "Treatment Period";
  (* Medical Terms *)
  lit "\becg\b" "ECG";
  lit "\bmri\b" "MRI";
  lit "\bct\s+scan\b" "CT scan";
  lit "\bdna\b" "DNA";
  lit "\brna\b" "RNA";
  lit "\bpcr\b" "PCR";
  (* Demographics *)
  lit "\bbmi\b" "BMI";
  lit "\bwhite\b" "White";
  lit "\bblack\b" "Black";
  lit "\basian\b" "Asian";
  lit "\bother\b" "Other";
  lit "\bmale\b" "Male";
  lit "\bfemale\b" "Female";
  (* Formatting *)
  lit "i\.e\.\s*([a-z])" "i.e., \1";
  lit "e\.g\.\s*([a-z])" "e.g., \1";
  lit "vs\.\s*([a-z])" "vs \1";
  lit "etc\.\s*([a-z])" "etc. \1"
].

Definition is_callable (rp : repl) : bool :=
  match rp with Fn _ => true | Templ _ => false end.

(** [any(kw in pattern for kw in ['adverse', 'event', 'reaction'])] *)
Definition clinical_kw (src : text) : bool :=
  contains src (u "adverse") || contains src (u "event") || contains src (u "reaction").

(** An entry [f"Applied rule: {pattern} -> {replacement}"] of the log,
    kept as the two values it formats: [entry_text] writes it out, given
    [str] of the lambdas (which shows their run-time address). *)
Record log_entry := { le_pattern : text; le_replacement : repl }.

Definition repl_str (fn_str : (mobj -> text) -> text) (rp : repl) : text :=
  match rp with Templ t => t | Fn f => fn_str f end.

Definition entry_text (fn_str : (mobj -> text) -> text) (e : log_entry) : text :=
  u "Applied rule: " ++ le_pattern e ++ u " -> " ++ repl_str fn_str (le_replacement e).

(** One iteration of the first pass: state [(corrected_text, corrections, text)]. *)
Definition first_pass_step (st : text * list log_entry * text) (e : text * repl)
  : text * list log_entry * text :=
  let '(ct, corrs, t) := st in
  let '(src, rp) := e in
  if clinical_kw src then st
  else
    let ct' := if is_callable rp then re_sub false src rp ct
               else re_sub true src rp ct in
    if negb (text_eqb ct' t)
    then (ct', corrs ++ [{| le_pattern := src; le_replacement := rp |}], ct')
    else (ct', corrs, t).

(** [replace_clinical_term] *)
Definition replace_clinical_term (mo : mobj) : text :=
  let t := g mo 0 in
  let tl := lower t in
  if contains tl (u "treatment emergent adverse event")
     || contains tl (u "treatment-emergent adverse event") then
    re_sub true (u "treatment[- ]emergent\s+adverse\s+event")
      (Templ (u "treatment-emergent adverse event (TEAE)")) t
  else if contains tl (u "serious adverse event") then
    re_sub true (u "serious\s+adverse\s+event") (Templ (u "serious adverse event (SAE)")) t
  else if contains tl (u "adverse event") then
    re_sub true (u "adverse\s+event") (Templ (u "adverse event (AE)")) t
  else if contains tl (u "adverse drug reaction") then
    re_sub true (u "adverse\s+drug\s+reaction") (Templ (u "adverse drug reaction (ADR)")) t
  else t.

Definition clinical_pattern : text :=
  u "\b(treatment[- ]emergent\s+adverse\s+event|serious\s+adverse\s+event|adverse\s+event|adverse\s+drug\s+reaction)\b".

(** [apply_style_corrections]: corrected text and the log of applied rules. *)
Definition apply_style_corrections (text0 : text) : text * list log_entry :=
  let '(ct, corrs, _) := fold_left first_pass_step corrections_map (text0, [], text0) in
  let ct := re_sub true clinical_pattern (Fn replace_clinical_term) ct in
  let ct := re_sub false (u "i\.e\.,?\s*(\d+)") (Templ (u "i.e., \1")) ct in
  let ct := re_sub false (u "~\s+(\d+)") (Templ (u "~\1")) ct in
  let ct := re_sub false (u "([≤≥])\s+(\d+)") (Templ (u "\1\2")) ct in
  (ct, corrs).

Definition corrected_text (t : text) : text := fst (apply_style_corrections t).

End Corrections.

(** ** [DocumentProcessor.chunk_text] *)
Module Chunking.

Definition is_delim (c : char) : bool := (c =? 46) || (c =? 33) || (c =? 63).

(** [re.split(r'([.!?])', text)]: the pieces between delimiters, each
    delimiter kept as a piece of its own (the capturing group). *)
Fixpoint split_delims (t : text) (cur : text) : list text :=
  match t with
  | [] => [rev cur]
  | c :: t' => if is_delim c then rev cur :: [c] :: split_delims t' [] else split_delims t' (c :: cur)
  end.

Definition nonempty (t : text) : bool := match t with [] => false | _ => true end.

(** [sentences = [s.strip() for s in re.split(...) if s.strip()]] *)
Definition sentences (t : text) : list text :=
  map strip (filter (fun s => nonempty (strip s)) (split_delims t [])).

(** [full_sentence = sentences[i] + sentences[i+1]] for [i] in steps of 2
    (the last one gets the delimiter [""] when the list has odd length). *)
Fixpoint pair_up (l : list text) : list text :=
  match l with
  | a :: b :: r => (a ++ b) :: pair_up r
  | [a] => [a]
  | [] => []
  end.

Definition full_sentences (t : text) : list text := pair_up (sentences t).

(** [if current_chunk:] *)
Definition nonempty_l (l : list text) : bool := match l with [] => false | _ => true end.

(** The accumulation loop, state [(chunks, current_chunk, current_length)]. *)
Fixpoint chunk_loop (chunk_size : nat) (ss : list text) (chunks cur : list text) (cl : nat)
  : list text :=
  match ss with
  | [] => if nonempty_l cur then chunks ++ [List.concat cur] else chunks
  | s :: ss' =>
      if (chunk_size <? cl + List.length s)%nat then
        chunk_loop chunk_size ss' (if nonempty_l cur then chunks ++ [List.concat cur] else chunks)
          [s] (List.length s)
      else chunk_loop chunk_size ss' chunks (cur ++ [s]) (cl + List.length s)
  end.

Definition chunk_text_sized (chunk_size : nat) (t : text) : list text :=
  chunk_loop chunk_size (full_sentences t) [] [] 0.

(** [self.chunk_size = 500] *)
Definition chunk_size : nat := 500.

Definition chunk_text (t : text) : list text := chunk_text_sized chunk_size t.

(** The text with all whitespace removed. *)
Definition remove_ws (t : text) : text := filter (fun c => negb (is_space c)) t.

End Chunking.

(** ** [RuleExtractor] of src/app/processor/rule_extractor.py and the
    enumerations of src/app/models/rule_schema.py *)
Module Extractor.
Local Open Scope string_scope.

Inductive RuleCategory :=
| STRUCTURE | NUMBERS | DOMAIN | FORMATTING | PUNCTUATION | GRAMMAR | ABBREVIATION | REFERENCE.

Inductive RuleType := DIRECT | PATTERN | MULTI | CASE | CONTEXT.

(** An extracted rule dictionary; the [uuid4] identifier is not modelled. *)
Record Rule := {
  r_pattern : text; r_replacement : text; r_description : text;
  r_examples : list text; r_type : RuleType; r_category : RuleCategory }.

(** [self.category_keywords] (the keyword lists, in declaration order). *)
Definition category_keywords : list (RuleCategory * list text) :=
  map (fun '(c, ks) => (c, map u ks)) [
  (STRUCTURE, ["section"; "heading"; "table"; "format"; "layout"; "indent"; "margin"; "page"; "paragraph"; "list"]);
  (NUMBERS, ["number"; "measurement"; "range"; "value"; "unit"; "percent"; "mg"; "ml"; "kg"; "decimal"; "digit"]);
  (DOMAIN, ["medical"; "drug"; "company"; "clinical"; "disease"; "patient"; "subject"; "treatment"; "dose"; "study"]);
  (FORMATTING, ["capital"; "space"; "hyphen"; "indent"; "font"; "bold"; "italic"; "underline"; "case"; "format"]);
  (PUNCTUATION, ["comma"; "period"; "colon"; "semicolon"; "dash"; "hyphen"; "parentheses"; "bracket"; "quote"]);
  (GRAMMAR, ["tense"; "verb"; "sentence"; "plural"; "singular"; "active"; "passive"; "voice"; "agreement"]);
  (ABBREVIATION, ["abbreviation"; "acronym"; "short form"; "initialism"; "expansion"; "define"; "spell out"]);
  (REFERENCE, ["reference"; "citation"; "source"; "bibliography"; "appendix"; "table"; "figure"; "cite"])].

(** [self.rule_patterns], verbatim ([dq]: the backquote stands for a double quote). *)
Definition rule_patterns : list text := [
  (* Direct replacements with arrows *)
  u "(?P<pattern>[^→]+)→\s*(?P<replacement>.+)";
  u "(?P<pattern>[^=]+)=>\s*(?P<replacement>.+)";
  u "(?P<pattern>[^-]+)->\s*(?P<replacement>.+)";
  (* Should/must be patterns *)
  u "(?P<pattern>.*?)\s*(?:should|must)\s+be\s+(?P<replacement>.*)";
  u "(?P<pattern>.*?)\s+(?:is|are)\s+(?P<replacement>.*)";
  (* Use/write/spell patterns *)
  dq (u "Use\s*[`\'](?P<replacement>.*?)[`\'](?:\s+instead\s+of|\s+not\s+)[`\'](?P<pattern>.*?)[`\']");
  dq (u "Write\s*[`\'](?P<replacement>.*?)[`\'](?:\s+instead\s+of|\s+not\s+)[`\'](?P<pattern>.*?)[`\']");
  dq (u "Spell\s+out\s*[`\'](?P<pattern>.*?)[`\'](?:\s+as\s+)[`\'](?P<replacement>.*?)[`\']");
  (* Change/becomes patterns *)
  u "(?P<pattern>.*?)\s*(?:changes\s+to|becomes)\s*(?P<replacement>.*)";
  dq (u "Change\s*[`\'](?P<pattern>.*?)[`\'](?:\s+to\s+)[`\'](?P<replacement>.*?)[`\']");
  (* Case rules *)
  u "(?i)(?P<pattern>\b\w+\b)\s*should\s+be\s*(?:in\s+)?(?P<case>upper\s*case|lower\s*case|title\s*case|capitalized)";
  u "(?i)Capitalize\s+(?P<pattern>.*?)(?:\s+when|$)";
  (* Context-sensitive rules *)
  u "(?i)When\s+(?P<context>.*?),\s*(?P<pattern>.*?)\s*should\s+be\s*(?P<replacement>.*)";
  u "(?i)If\s+(?P<context>.*?),\s*use\s*(?P<replacement>.*?)\s*(?:instead\s+of|not)\s*(?P<pattern>.*)";
  (* Multi-word phrases *)
  dq (u "(?i)Replace\s*[`\'](?P<pattern>.*?)[`\'](?:\s+with\s+)[`\'](?P<replacement>.*?)[`\']");
  dq (u "(?i)The\s+phrase\s*[`\'](?P<pattern>.*?)[`\'](?:\s+should\s+be\s+)[`\'](?P<replacement>.*?)[`\']");
  (* Pattern-based rules *)
  u "(?i)Numbers\s+(?P<pattern>\d+(?:[,-]\d+)*)\s*should\s+be\s*(?P<replacement>.*)";
  u "(?i)Units\s+(?P<pattern>[a-zA-Z]+)\s*should\s+be\s*(?P<replacement>.*)";
  (* Abbreviation rules *)
  dq (u "(?i)Abbreviate\s*[`\'](?P<pattern>.*?)[`\'](?:\s+as\s+)[`\'](?P<replacement>.*?)[`\']");
  dq (u "(?i)The\s+abbreviation\s*[`\'](?P<pattern>.*?)[`\'](?:\s+stands\s+for\s+)[`\'](?P<replacement>.*?)[`\']")
].

(** [_determine_rule_type(pattern, replacement)]. Its first branch,
    [callable(replacement)], is never taken: the replacement is always the
    [str] of a match group. *)
Definition determine_rule_type (pattern replacement : text) : RuleType :=
  if contains pattern (u "(") || contains pattern (u "[") then PATTERN
  else if (2 <? List.length (split_ws pattern))%nat then MULTI
  else if negb (text_eqb (lower pattern) (lower replacement)) then CASE
  else DIRECT.



(** [_determine_rule_category(text)]: the first category with the strictly
    highest keyword count, [FORMATTING] when no keyword occurs. *)
Definition determine_rule_category (t : text) : RuleCategory :=
  let tl := lower t in
  snd (fold_left
         (fun '(max_score, best) '(cat, kws) =>
            let score := List.length (filter (fun kw => contains tl (lower kw)) kws) in
            if (max_score <? score)%nat then (score, cat) else (max_score, best))
         category_keywords (0%nat, FORMATTING)).

(** The body of the [try] block for one match: [None] when
    [match.group('pattern')] or [match.group('replacement')] raises
    (IndexError: no such group) or is [None] (AttributeError on [.strip()]). *)
Definition build_rule (p : pattern) (sent_text : text) (mo : mobj) : option Rule :=
  match group_named p mo (u "pattern"), group_named p mo (u "replacement") with
  | Some gp, Some gr =>
      Some {| r_pattern := strip gp; r_replacement := strip gr;
              r_description := sent_text; r_examples := [];
              r_type := determine_rule_type gp gr;
              r_category := determine_rule_category sent_text |}
  | _, _ => None
  end.

Fixpoint filter_some {A : Type} (l : list (option A)) : list A :=
  match l with
  | [] => []
  | Some x :: l' => x :: filter_some l'
  | None :: l' => filter_some l'
  end.

(** [for pattern in self.rule_patterns: for match in re.finditer(pattern, sent_text): ...] *)
Definition rules_of_segment (sent_text : text) : list Rule :=
  flat_map (fun src => let p := pat src in
                       filter_some (map (build_rule p sent_text) (finditer p sent_text)))
           rule_patterns.

Section ExtractRules.
(** The spaCy sentence segmenter ([doc.sents]), an external collaborator:
    the texts of the sentence spans. *)
Variable sents : text -> list text.

(** [extract_rules(text)] *)
Definition extract_rules (t : text) : list Rule :=
  flat_map (fun s => let sent_text := strip s in
                     if Chunking.nonempty sent_text then rules_of_segment sent_text else [])
           (sents t).
End ExtractRules.

End Extractor.

(** ** The embedding index: FAISS [IndexFlatL2] (external library) *)
Module Faiss.
Local Open Scope Q_scope.

Definition vec := list Q.

(** Squared Euclidean distance, as [IndexFlatL2] computes it. *)
Fixpoint sqdist (a b : vec) : Q :=
  match a, b with
  | x :: a', y :: b' => (x - y) * (x - y) + sqdist a' b'
  | _, _ => 0
  end.

(** A search hit: the label ([-1] for padding) and the distance ([None] is
    the +infinity FAISS reports with padding labels). *)
Record hit := { h_label : Z; h_dist : option Q }.

(** Stable insertion by distance: ties keep the smaller id first. *)
Fixpoint insert_hit (h : Q * Z) (l : list (Q * Z)) : list (Q * Z) :=
  match l with
  | [] => [h]
  | x :: l' => if Qle_bool (fst x) (fst h) then x :: insert_hit h l' else h :: l
  end.

Definition sort_hits (l : list (Q * Z)) : list (Q * Z) := fold_left (fun acc h => insert_hit h acc) l [].

Fixpoint with_ids (vs : list vec) (i : Z) : list (vec * Z) :=
  match vs with
  | [] => []
  | v :: vs' => (v, i) :: with_ids vs' (i + 1)%Z
  end.

(** [index.search(q, k)] for one query: the [k] nearest stored vectors in
    ascending distance, padded with [(-1, +inf)] when fewer are stored; the
    Python wrapper asserts [k > 0]. *)
Definition search (index : list vec) (q : vec) (k : nat) : option (list hit) :=
  match k with
  | O => None
  | _ =>
    let ranked := sort_hits (map (fun '(v, i) => (sqdist q v, i)) (with_ids index 0)) in
    Some (map (fun '(d, i) => {| h_label := i; h_dist := Some d |}) (firstn k ranked)
          ++ repeat {| h_label := (-1)%Z; h_dist := None |} (k - List.length index))
  end.

(** [dist < bound] for a float distance (+inf is never below a bound). *)
Definition dist_lt (d : option Q) (bound : Q) : bool :=
  match d with Some x => negb (Qle_bool bound x) | None => false end.

End Faiss.

(** Python list indexing [l[i]]: negative indices count from the end, an
    index out of range raises IndexError ([None]). *)
Definition py_index {A : Type} (l : list A) (i : Z) : option A :=
  if (0 <=? i)%Z then nth_error l (Z.to_nat i)
  else if (- Z.of_nat (List.length l) <=? i)%Z
       then nth_error l (Z.to_nat (Z.of_nat (List.length l) + i))
       else None.

(** ** Session processor of src/app/processor/document_processor.py *)
Module AppProcessor.
Import Extractor Faiss.

Record state := { index : option (list vec); style_rules : list Rule }.

(** [DocumentProcessor()]: no index, no rules. *)
Definition init : state := {| index := None; style_rules := [] |}.

Record csr_match := { cm_rule : Rule; cm_distance : Q; cm_changes : list Corrections.log_entry }.

Record csr_result := { cr_text : text; cr_corrected_text : text;
                       cr_matches : list csr_match; cr_changes : list Corrections.log_entry }.

Section WithModel.
(** [self.model.encode]: the sentence-transformer embedder (external). *)
Variable encode : text -> vec.
(** [extract_text_from_docx(file_path)] (python-docx, external). *)
Variable extract_text_from_docx : text -> text.

Definition rule_text (r : Rule) : text := r_pattern r ++ u " " ++ r_replacement r.

(** [process_style_guide(content, rules)]: [rules] is the category dict. *)
Definition process_style_guide (st : state) (rules : list (RuleCategory * list Rule)) : state :=
  let flat_rules := flat_map snd rules in
  let rule_texts := map rule_text flat_rules in
  match rule_texts with
  | [] => {| index := index st; style_rules := flat_rules |}
  | _ => {| index := Some (map encode rule_texts); style_rules := flat_rules |}
  end.

(** The matches of one chunk ([if dist < 100]); [None] when the search or
    [self.style_rules[idx]] raises. *)
Fixpoint collect_matches (rules : list Rule) (changes : list Corrections.log_entry) (hs : list hit)
  : option (list csr_match) :=
  match hs with
  | [] => Some []
  | h :: hs' =>
      if dist_lt (h_dist h) 100 then
        match py_index rules (h_label h), h_dist h, collect_matches rules changes hs' with
        | Some r, Some d, Some ms =>
            Some ({| cm_rule := r; cm_distance := d; cm_changes := changes |} :: ms)
        | _, _, _ => None
        end
      else collect_matches rules changes hs'
  end.

Definition chunk_matches (st : state) (chunk : text) (changes : list Corrections.log_entry)
  : option (list csr_match) :=
  match index st with
  | None => Some []
  | Some idx =>
      match search idx (encode chunk) (Nat.min 3 (List.length (style_rules st))) with
      | Some hs => collect_matches (style_rules st) changes hs
      | None => None
      end
  end.

Fixpoint process_chunks (st : state) (chunks : list text) : option (list csr_result) :=
  match chunks with
  | [] => Some []
  | c :: cs =>
      let '(ct, changes) := Corrections.apply_style_corrections c in
      match chunk_matches st c changes, process_chunks st cs with
      | Some ms, Some rs =>
          Some ({| cr_text := c; cr_corrected_text := ct; cr_matches := ms;
                   cr_changes := changes |} :: rs)
      | _, _ => None
      end
  end.

(** [process_csr(file_path)]: [None] when it raises. *)
Definition process_csr (st : state) (file_path : text) : option (list csr_result) :=
  process_chunks st (Chunking.chunk_text (extract_text_from_docx file_path)).

End WithModel.
End AppProcessor.

(** ** [StyleGuideProcessor] of src/document_processor.py *)
Module GuideProcessor.
Import Faiss.

(** [StyleChunk]; [metadata] is the constant
    [{"source": "style_guide", "confidence": 1.0}] and is not modelled. *)
Record StyleChunk := { sc_content : text; sc_rule_type : text; sc_section : text;
                       sc_examples : list text; sc_embedding : vec }.

(** [self.index] and [self.chunks]. *)
Record state := { index : list vec; chunks : list StyleChunk }.

(** [StyleGuideProcessor()]: an empty [IndexFlatL2] and no chunks. *)
Definition init : state := {| index := []; chunks := [] |}.

(** [str.split('\n')] *)
Fixpoint split_lines_aux (t cur : text) : list text :=
  match t with
  | [] => [rev cur]
  | c :: t' => if c =? 10 then rev cur :: split_lines_aux t' [] else split_lines_aux t' (c :: cur)
  end.

Definition split_lines (t : text) : list text := split_lines_aux t [].

(** ['\n'.join(l)] *)
Fixpoint join_lines (l : list text) : text :=
  match l with
  | [] => []
  | [x] => x
  | x :: l' => x ++ [10] ++ join_lines l'
  end.

Definition heading_patterns : list text := [
  u "^#+\s+(.+)$";            (* Markdown style *)
  u "^[A-Z][^a-z]+[.:]\s*(.+)$";  (* SECTION: style *)
  u "^\d+\.\s+(.+)$"          (* Numbered sections *)
].

Fixpoint first_heading (ps : list text) (line : text) : option text :=
  match ps with
  | [] => None
  | p :: ps' =>
      match rmatch (pat p) line with
      | Some mo => Some (Corrections.g mo 1)
      | None => first_heading ps' line
      end
  end.

(** One line of [extract_sections], state
    [(sections, current_section, current_content)]. *)
Definition section_step (st : list (text * text) * text * list text) (line : text)
  : list (text * text) * text * list text :=
  let '(sections, cur_sec, cur_content) := st in
  match first_heading heading_patterns (strip line) with
  | Some title =>
      let sections' := if Chunking.nonempty cur_sec
                       then sections ++ [(cur_sec, strip (join_lines cur_content))]
                       else sections in
      (sections', title, [])
  | None => (sections, cur_sec, cur_content ++ [line])
  end.

Definition extract_sections (t : text) : list (text * text) :=
  let '(sections, cur_sec, cur_content) :=
    fold_left section_step (split_lines t) ([], [], []) in
  if Chunking.nonempty cur_sec
  then sections ++ [(cur_sec, strip (join_lines cur_content))]
  else sections.

Definition example_patterns : list text := [
  u "(?:Example|e\.g\.|For example)[:\s]+([^.\n]+(?:[.\n][^.\n]+)*)";
  u "(?m)^â€¢\s*([^.\n]+(?:[.\n][^.\n]+)*)";
  u "(?m)^\d+\.\s+([^.\n]+(?:[.\n][^.\n]+)*)"
].

(** [extract_examples(text)] with [re.IGNORECASE | re.MULTILINE]. *)
Definition extract_examples (t : text) : list text :=
  flat_map (fun src => map (fun mo => strip (Corrections.g mo 1))
                           (finditer (with_multiline (with_icase (pat src))) t))
           example_patterns.

Definition rule_types : list (text * list text) :=
  map (fun '(n, ks) => (u n, map u ks)) [
  ("formatting", ["format"; "style"; "font"; "spacing"; "margin"; "indent"; "layout"]);
  ("grammar", ["grammar"; "tense"; "verb"; "noun"; "sentence"; "phrase"]);
  ("punctuation", ["punctuation"; "comma"; "period"; "colon"; "semicolon"]);
  ("terminology", ["term"; "word"; "vocabulary"; "glossary"; "definition"]);
  ("structure", ["structure"; "organization"; "section"; "heading"; "outline"])]%string.

(** [identify_rule_type(text, section)]: the first type of highest score
    ([max] returns the first maximal item), ['general'] when all are 0. *)
Definition identify_rule_type (t section : text) : text :=
  let tl := lower t ++ u " " ++ lower section in
  let scores := map (fun '(n, ks) => (n, List.length (filter (fun k => contains tl k) ks)))
                    rule_types in
  let max_score := fold_left Nat.max (map snd scores) 0%nat in
  if (0 <? max_score)%nat then
    match List.find (fun x : text * nat => (snd x =? max_score)%nat) scores with
    | Some (n, _) => n
    | None => u "general"
    end
  else u "general".

Section WithModel.
Variable encode : text -> vec.
(** [self.text_splitter.split_text] (LangChain's splitter, external). *)
Variable split_text : text -> list text.

(** The chunks kept from one section. *)
Definition section_chunks (sec : text * text) : list StyleChunk :=
  let '(title, content) := sec in
  flat_map (fun chunk =>
              if (List.length (strip chunk) <? 50)%nat then []
              else [{| sc_content := chunk; sc_rule_type := identify_rule_type chunk title;
                       sc_section := title; sc_examples := extract_examples chunk;
                       sc_embedding := encode chunk |}])
           (split_text content).

(** [full_text]: the text of each page (skipped when [None] or empty)
    followed by two newlines. *)
Definition full_text (pages : list (option text)) : text :=
  flat_map (fun p => match p with
                     | Some t => if Chunking.nonempty t then t ++ [10; 10] else []
                     | None => []
                     end) pages.

(** [preprocess_pdf(pdf_path)] on the page texts of the PDF: the kept
    chunks are collected in a fresh list that replaces [self.chunks], while
    each embedding is added to the existing [self.index] (the progress
    callback has no effect on the state). *)
Definition preprocess_pdf (st : state) (pages : list (option text)) : state :=
  let new_chunks := flat_map section_chunks (extract_sections (full_text pages)) in
  {| index := index st ++ map sc_embedding new_chunks; chunks := new_chunks |}.
End WithModel.
End GuideProcessor.

(** ** [apply_style_rules] and [process_csr_document] of src/document_processor.py *)
Module GuideCorrection.
Import Faiss GuideProcessor.

(** A matched-rule dictionary ([rule], [type], [section], [examples], [confidence]). *)
Record matched_rule := { mr_rule : text; mr_type : text; mr_section : text;
                         mr_examples : list text; mr_confidence : Q }.

Inductive error :=
| ValueError (msg : text)
| SortTypeError          (** [list.sort] comparing two different dicts *)
| SearchError.           (** an exception raised by the index search *)

Record applied := { ap_original_text : text; ap_corrected_text : text;
                    ap_applied_rules : list matched_rule }.

Section WithEnv.
(** [f"{rule['confidence']}"]: Python's float formatting. *)
Variable show_conf : Q -> text.
(** [rules_with_pos.sort(reverse=True)] on [(position, dict)] tuples: it
    either raises TypeError (comparing two different dicts under equal positions) or
    returns a permutation of its input. *)
Variable sort_desc : list (nat * matched_rule) -> option (list (nat * matched_rule)).

(** [corrected_text.lower().find(rule['rule'].lower())] *)
Definition find_rule (ct : text) (r : matched_rule) : option nat :=
  find (lower ct) (lower (mr_rule r)).

(** One iteration of the application loop, state [(corrected_text, has_changes)]. *)
Definition apply_step (st : text * bool) (pr : nat * matched_rule) : text * bool :=
  let '(ct, has_changes) := st in
  let r := snd pr in
  match find_rule ct r, mr_examples r with
  | Some pos, replacement :: _ =>
      let original_text := slice ct pos (pos + List.length (mr_rule r)) in
      if negb (text_eqb (lower (strip original_text)) (lower (strip replacement))) then
        let marked := u "<change confidence=" ++ show_conf (mr_confidence r) ++ u ">"
                      ++ replacement ++ u "</change>" in
        (firstn pos ct ++ marked ++ skipn (pos + List.length (mr_rule r)) ct, true)
      else (ct, has_changes)
  | _, _ => (ct, has_changes)
  end.

Fixpoint with_pos (t : text) (rules : list matched_rule) : list (nat * matched_rule) :=
  match rules with
  | [] => []
  | r :: rs =>
      match find_rule t r with
      | Some p => (p, r) :: with_pos t rs
      | None => with_pos t rs
      end
  end.

(** [apply_style_rules(text, rules)]; [None] when the sort raises. *)
Definition apply_style_rules (t : text) (rules : list matched_rule) : option text :=
  match sort_desc (with_pos t rules) with
  | None => None
  | Some sorted =>
      let '(ct, has_changes) := fold_left apply_step sorted (t, false) in
      Some (if has_changes then ct else t)
  end.

(** [matched_rules] of one paragraph, from the search hits. *)
Fixpoint matched_of_hits (cs : list StyleChunk) (hs : list hit) : list matched_rule :=
  match hs with
  | [] => []
  | h :: hs' =>
      let rest := matched_of_hits cs hs' in
      match h_dist h with
      | Some d =>
        if (0 <=? h_label h)%Z && (h_label h <? Z.of_nat (List.length cs))%Z
           && negb (Qle_bool (3 # 2) d) then
          match nth_error cs (Z.to_nat (h_label h)) with
          | Some c =>
              match sc_examples c with
              | [] => rest
              | _ => {| mr_rule := sc_content c; mr_type := sc_rule_type c;
                        mr_section := sc_section c; mr_examples := sc_examples c;
                        mr_confidence := 1 - d / 2 |} :: rest
              end
          | None => rest
          end
        else rest
      | None => rest
      end
  end.

Variable encode : text -> vec.

(** The search of one paragraph ([k = min(3, len(self.chunks))], skipped when 0). *)
Definition paragraph_matches (st : state) (p : text) : option (list matched_rule) :=
  let k := Nat.min 3 (List.length (chunks st)) in
  match k with
  | O => Some []
  | _ => match search (index st) (encode p) k with
         | Some hs => Some (matched_of_hits (chunks st) hs)
         | None => None
         end
  end.

Definition differs_from_paragraph (p : text) (r : matched_rule) : bool :=
  existsb (fun e => negb (text_eqb (lower (strip e)) (lower (strip p)))) (mr_examples r).

(** The paragraph loop: the paragraphs added to the processed document and
    the applied-rule records. *)
Fixpoint process_paragraphs (st : state) (ps : list text)
  : error + (list text * list applied) :=
  match ps with
  | [] => inr ([], [])
  | p :: ps' =>
    if negb (Chunking.nonempty (strip p)) then process_paragraphs st ps'
    else
      match paragraph_matches st p with
      | None => inl SearchError
      | Some matched =>
        let this :=
          match matched with
          | [] => inr []
          | _ => match apply_style_rules p matched with
                 | None => inl SortTypeError
                 | Some ct =>
                     if text_eqb ct p then inr []
                     else inr [{| ap_original_text := p; ap_corrected_text := ct;
                                  ap_applied_rules := filter (differs_from_paragraph p) matched |}]
                 end
          end in
        match this, process_paragraphs st ps' with
        | inl e, _ => inl e
        | inr _, inl e => inl e
        | inr a, inr (doc, rest) => inr (p :: doc, a ++ rest)
        end
      end
  end.

Definition no_guide_msg : text :=
  u "No style guide has been processed yet. Please upload a style guide first.".

(** [process_csr_document(doc_path)] on the paragraph texts of the document. *)
Definition process_csr_document (st : state) (paragraphs : list text)
  : error + (list text * list applied) :=
  match chunks st with
  | [] => inl (ValueError no_guide_msg)
  | _ => process_paragraphs st paragraphs
  end.

End WithEnv.

(** [rules_with_pos.sort(reverse=True)] itself. Two [(position, dict)]
    tuples compare by position first; under equal positions Python compares
    the two dicts with [==] and, only when they differ, with [<], which
    raises TypeError. The entries of one position form one block of the
    sorted list, and a comparison sort that never compared two different
    dicts of a block could not tell that block apart from one with those
    entries shifted, so the sort raises exactly when two entries share a
    position but carry different dicts. Otherwise it returns the list in
    descending position, entries of equal position in their input order
    ([reverse=True] keeps the sort stable). *)
Fixpoint texts_eqb (a b : list text) : bool :=
  match a, b with
  | [], [] => true
  | x :: a', y :: b' => text_eqb x y && texts_eqb a' b'
  | _, _ => false
  end.

(** [==] on two matched-rule dicts (the confidences are floats, compared
    by value). *)
Definition dict_eqb (a b : matched_rule) : bool :=
  text_eqb (mr_rule a) (mr_rule b) && text_eqb (mr_type a) (mr_type b)
  && text_eqb (mr_section a) (mr_section b) && texts_eqb (mr_examples a) (mr_examples b)
  && Qeq_bool (mr_confidence a) (mr_confidence b).

Fixpoint sort_raises (l : list (nat * matched_rule)) : bool :=
  match l with
  | [] => false
  | x :: l' => existsb (fun y => (fst y =? fst x)%nat && negb (dict_eqb (snd x) (snd y))) l'
               || sort_raises l'
  end.

Fixpoint insert_desc (x : nat * matched_rule) (l : list (nat * matched_rule))
  : list (nat * matched_rule) :=
  match l with
  | [] => [x]
  | y :: l' => if (fst y <=? fst x)%nat then x :: l else y :: insert_desc x l'
  end.

Definition py_sort_desc (l : list (nat * matched_rule)) : option (list (nat * matched_rule)) :=
  if sort_raises l then None else Some (fold_right insert_desc [] l).

End GuideCorrection.

(** ** The [/upload/csr] endpoint of src/app/main.py *)
Module Api.

Record http_error := { status_code : Z; detail : text }.

(** [style_guide_processed] and the [doc_processor]. *)
Record session := { style_guide_processed : bool; doc_processor : AppProcessor.state }.

Fixpoint ends_with (t suffix : text) : bool :=
  match t with
  | [] => text_eqb suffix []
  | _ :: t' => text_eqb t suffix || ends_with t' suffix
  end.

Definition docx_type : text :=
  u "application/vnd.openxmlformats-officedocument.wordprocessingml.document".

Definition validate_docx (filename content_type : text) : option http_error :=
  if negb (ends_with (lower filename) (u ".docx")) then
    Some {| status_code := 400; detail := u "File must be a DOCX" |}
  else if negb (text_eqb content_type docx_type) then
    Some {| status_code := 400; detail := u "Invalid file type. File must be a valid DOCX." |}
  else None.

Section WithModel.
Variable encode : text -> Faiss.vec.
Variable extract_text_from_docx : text -> text.

(** [upload_csr(file)]: the temporary file is [path]. The 500 detail is
    [f"Error processing file: {str(e)}"]; the exception text is not
    modelled. *)
Definition upload_csr (s : session) (filename content_type path : text)
  : http_error + list AppProcessor.csr_result :=
  match validate_docx filename content_type with
  | Some e => inl e
  | None =>
    if negb (style_guide_processed s) then
      inl {| status_code := 400; detail := u "Please upload a style guide first" |}
    else
      match AppProcessor.process_csr encode extract_text_from_docx (doc_processor s) path with
      | Some rs => inr rs
      | None => inl {| status_code := 500; detail := u "Error processing file" |}
      end
  end.
End WithModel.
End Api.

(** ** [RuleExtractor.categorize_rules] *)
Module Categorize.
Import Extractor.

Definition category_eq_dec (a b : RuleCategory) : {a = b} + {a <> b}.
Proof. decide equality. Defined.

(** [for category in RuleCategory]: the declaration order of the enum. *)
Definition all_categories : list RuleCategory :=
  [STRUCTURE; NUMBERS; DOMAIN; FORMATTING; PUNCTUATION; GRAMMAR; ABBREVIATION; REFERENCE].

(** [categorize_rules(rules)]: a bucket per category, in enum order; each
    rule is appended to the bucket of its category. The [StyleRule] built
    from a rule dict carries the same fields ([RuleType[t.upper()]] and
    [RuleCategory[c.upper()]] give back the enum members the extractor
    stored); the [id] and [context] fields are not modelled. *)
Definition categorize_rules (rules : list Rule) : list (RuleCategory * list Rule) :=
  map (fun c => (c, filter (fun r => if category_eq_dec (r_category r) c then true else false) rules))
      all_categories.

End Categorize.

(** ** [DocumentProcessor.extract_text_from_docx] *)
Module DocxText.

(** The parts of a python-docx [Document] the function reads: the
    paragraph texts and, for each table, the cell texts of each row. *)
Record docx := { paragraphs : list text; tables : list (list (list text)) }.

(** The non-blank paragraph texts, then the non-blank cell texts table by
    table and row by row, joined with newlines. *)
Definition extract_text_from_docx (d : docx) : text :=
  GuideProcessor.join_lines (filter (fun t => Chunking.nonempty (strip t))
                     (paragraphs d ++ List.concat (List.concat (tables d)))).

End DocxText.

(** ** The [/upload/style-guide] endpoint of src/app/main.py *)
Module ApiStyleGuide.
Import Api Extractor.

Definition validate_pdf (filename content_type : text) : option http_error :=
  if negb (ends_with (lower filename) (u ".pdf")) then
    Some {| status_code := 400; detail := u "File must be a PDF" |}
  else if negb (text_eqb content_type (u "application/pdf")) then
    Some {| status_code := 400; detail := u "Invalid file type. File must be a valid PDF." |}
  else None.

(** [default_rules_text]: the triple-quoted literal, line by line (a
    backquote stands for a double quote). *)
Definition default_rules_text : text :=
  GuideProcessor.join_lines (map (fun s => dq (u s)) [
  "";
  "1. Capitalization Rules:";
  "   - `subject` → `Subject` when used as a noun";
  "   - `DAIICHI SANKYO` → `Daiichi Sankyo`";
  "   - `section` → `Section` when referring to document sections";
  "";
  "2. Status Terms:";
  "   - `approved` → `APPROVED`";
  "   - `completed` → `COMPLETED`";
  "   - `ongoing` → `ONGOING`";
  "";
  "3. Document Types:";
  "   - `informed consent form` → `ICF`";
  "   - `clinical study report` → `CSR`";
  "   - `statistical analysis plan` → `SAP`";
  "";
  "4. Section References:";
  "   - `see section` → `see Section`";
  "   - `in appendix` → `in Appendix`";
  "   - `table 1` → `Table 1`";
  "";
  "5. Medical Terms:";
  "   - Use `adverse event` instead of `side effect`";
  "   - `patient` → `subject` when referring to study participants";
  "   - `medicine` → `study drug`";
  ""]%string).

Section WithModel.
Variable encode : text -> Faiss.vec.
(** The spaCy sentence segmenter of the rule extractor. *)
Variable sents : text -> list text.

(** [upload_style_guide(file)]: [pdf] is what PyPDF2 makes of the upload,
    either the exception it raises (its [str]) when the content cannot be
    read as a PDF, or the texts it extracts from the pages. A read error
    falls into [except Exception] and is answered with HTTP 500. On
    success the session is updated and the categorized rules are returned
    ([formatted_rules] is their dict form). *)
Definition upload_style_guide (s : session) (filename content_type : text) (pdf : text + list text)
  : http_error + (session * list (RuleCategory * list Rule)) :=
  match validate_pdf filename content_type with
  | Some e => inl e
  | None =>
    match pdf with
    | inl msg => inl {| status_code := 500; detail := u "Error processing file: " ++ msg |}
    | inr pages =>
    let text := List.concat (skipn 5 pages) in
    let text := if (List.length (strip text) <? 100)%nat then default_rules_text else text in
    let rules := extract_rules sents text in
    let categorized_rules := Categorize.categorize_rules rules in
    inr ({| style_guide_processed := true;
            doc_processor := AppProcessor.process_style_guide encode (doc_processor s) categorized_rules |},
         categorized_rules)
    end
  end.
End WithModel.
End ApiStyleGuide.

(** ** The Flask application of src/app.py *)
Module FlaskApp.
Import GuideCorrection.

(** [str.replace(old, new)] for a non-empty [old]: every occurrence,
    scanning left to right without overlaps; [skip] counts the characters
    of the occurrence just replaced that are still to be dropped. *)
Fixpoint replace_go (old new : text) (skip : nat) (t : text) : text :=
  match t with
  | [] => []
  | c :: t' =>
      match skip with
      | S k => replace_go old new k t'
      | O => if prefixb old t then new ++ replace_go old new (pred (List.length old)) t'
             else c :: replace_go old new O t'
      end
  end.

Definition str_replace (old new t : text) : text := replace_go old new O t.

(** [str.replace(old, new, 1)] for a non-empty [old]. *)
Fixpoint replace_first (old new t : text) : text :=
  match t with
  | [] => []
  | c :: t' => if prefixb old t then new ++ skipn (List.length old) t
               else c :: replace_first old new t'
  end.

(** The cleaning applied to a corrected text in [create_corrected_doc]
    and [create_analysis_doc]. *)
Definition clean_text (t : text) : text :=
  replace_first (u ">") [] (str_replace (u "</change>") [] (str_replace (u "<change confidence=") [] t)).

(** The marker [apply_style_rules] writes around a replacement. *)
Definition marker (conf replacement : text) : text :=
  u "<change confidence=" ++ conf ++ u ">" ++ replacement ++ u "</change>".

(** A python-docx document as the sequence of its blocks. *)
Inductive block := Heading (level : nat) (t : text) | Para (t : text).

(** [create_corrected_doc(results)] on [results['applied_rules']]. *)
Definition create_corrected_doc (results : list applied) : list block :=
  Heading 0 (u "Corrected Document")
  :: map (fun it => Para (clean_text (if Chunking.nonempty (ap_corrected_text it)
                                      then ap_corrected_text it else ap_original_text it)))
         results.

(** The JSON bodies of the two upload endpoints; [FError None] is
    [str(e)] of an exception whose text is not modelled. *)
Inductive body :=
| FError (msg : option text)
| FChunks (n : nat)
| FCsr (applied_rules : list applied) (total_paragraphs total_rules_applied : nat).

Definition error_msg (e : error) : option text :=
  match e with ValueError m => Some m | _ => None end.

Section WithModel.
Variable encode : text -> Faiss.vec.
Variable split_text : text -> list text.
Variable show_conf : Q -> text.

(** [/api/upload-style-guide]: [file] is the uploaded [style_guide] part:
    its filename and what saving it and opening it with pdfplumber give,
    either the exception raised ([str(e)]) or the page texts of the PDF.
    Such an exception is raised before [preprocess_pdf] changes the
    processor, and is answered with HTTP 500; the embedder and the splitter
    do not fail. The processor state is returned with the response. *)
Definition flask_upload_style_guide (st : GuideProcessor.state)
           (file : option (text * (text + list (option text)))) : Z * body * GuideProcessor.state :=
  match file with
  | None => (400, FError (Some (u "No style guide file provided")), st)
  | Some (filename, pdf) =>
      if negb (Chunking.nonempty filename) then (400, FError (Some (u "No file selected")), st)
      else if negb (Api.ends_with filename (u ".pdf")) then
        (400, FError (Some (u "Please upload a PDF file")), st)
      else
        match pdf with
        | inl msg => (500, FError (Some msg), st)
        | inr pages =>
            let st' := GuideProcessor.preprocess_pdf encode split_text st pages in
            (200, FChunks (List.length (GuideProcessor.chunks st')), st')
        end
  end.

(** [/api/process-csr]: [file] is the uploaded [csr_doc] part, its
    filename and its paragraph texts. *)
Definition flask_process_csr (st : GuideProcessor.state) (file : option (text * list text)) : Z * body :=
  match file with
  | None => (400, FError (Some (u "No CSR document provided")))
  | Some (filename, paragraphs) =>
      if negb (Chunking.nonempty filename) then (400, FError (Some (u "No file selected")))
      else if negb (Api.ends_with filename (u ".docx")) then
        (400, FError (Some (u "Please upload a DOCX file")))
      else
        match process_csr_document show_conf py_sort_desc encode st paragraphs with
        | inl e => (500, FError (error_msg e))
        | inr (doc, applied_rules) =>
            (200, FCsr applied_rules (List.length doc) (List.length applied_rules))
        end
  end.
End WithModel.
End FlaskApp.

(** ** An order-preserving sublist relation, used to state the order of
    the records and log entries the code produces. *)
Module Seq.
Inductive subseq {A : Type} : list A -> list A -> Prop :=
| subseq_nil : subseq [] []
| subseq_skip (x : A) (l1 l2 : list A) : subseq l1 l2 -> subseq l1 (x :: l2)
| subseq_take (x : A) (l1 l2 : list A) : subseq l1 l2 -> subseq (x :: l1) (x :: l2).
End Seq.

(* ================================================================== *)
(** * Proofs *)

Module ChunkingFacts.
Import Chunking.

Lemma remove_ws_app (a b : text) : remove_ws (a ++ b) = remove_ws a ++ remove_ws b.
Proof. unfold remove_ws. apply filter_app. Qed.

Lemma remove_ws_rev (a : text) : remove_ws (rev a) = rev (remove_ws a).
Proof.
  induction a as [| c a IH]; [reflexivity |].
  simpl. rewrite remove_ws_app, IH. unfold remove_ws at 2. simpl.
  destruct (is_space c); simpl; [apply app_nil_r | reflexivity].
Qed.

Lemma remove_ws_lstrip (a : text) : remove_ws (lstrip a) = remove_ws a.
Proof.
  induction a as [| c a IH]; [reflexivity |].
  cbn [lstrip]. destruct (is_space c) eqn:E; [| reflexivity].
  rewrite IH. unfold remove_ws. simpl. rewrite E. reflexivity.
Qed.

Lemma remove_ws_strip (a : text) : remove_ws (strip a) = remove_ws a.
Proof.
  unfold strip. rewrite remove_ws_rev, remove_ws_lstrip, remove_ws_rev,
    remove_ws_lstrip, rev_involutive. reflexivity.
Qed.

Lemma concat_split_delims (t cur : text) :
  List.concat (split_delims t cur) = rev cur ++ t.
Proof.
  revert cur. induction t as [| c t IH]; intro cur; simpl.
  - rewrite !app_nil_r. reflexivity.
  - destruct (is_delim c); simpl.
    + rewrite IH. reflexivity.
    + rewrite IH. simpl. rewrite <- app_assoc. reflexivity.
Qed.

Lemma remove_ws_strip_pieces (l : list text) :
  remove_ws (List.concat (map strip (filter (fun s => nonempty (strip s)) l)))
  = remove_ws (List.concat l).
Proof.
  induction l as [| s l IH]; [reflexivity |].
  simpl. destruct (nonempty (strip s)) eqn:E; simpl.
  - rewrite !remove_ws_app, IH, remove_ws_strip. reflexivity.
  - assert (Hs : remove_ws s = []).
    { rewrite <- remove_ws_strip. destruct (strip s); [reflexivity | discriminate]. }
    rewrite remove_ws_app, <- IH, Hs. reflexivity.
Qed.

Lemma remove_ws_sentences (t : text) :
  remove_ws (List.concat (sentences t)) = remove_ws t.
Proof.
  unfold sentences. rewrite remove_ws_strip_pieces, concat_split_delims. reflexivity.
Qed.

Lemma concat_pair_up (l : list text) : List.concat (pair_up l) = List.concat l.
Proof.
  assert (H : forall n l, (List.length l <= n)%nat -> List.concat (pair_up l) = List.concat l).
  { induction n as [| n IH]; intros [| a [| b r]] Hl; simpl in *; try reflexivity; try lia.
    - rewrite IH by lia. rewrite app_assoc. reflexivity. }
  apply (H (List.length l)). lia.
Qed.

Lemma concat_chunk_loop (n : nat) (ss chunks cur : list text) (cl : nat) :
  List.concat (chunk_loop n ss chunks cur cl)
  = List.concat chunks ++ List.concat cur ++ List.concat ss.
Proof.
  revert chunks cur cl. induction ss as [| s ss IH]; intros chunks cur cl; simpl.
  - destruct cur; simpl; rewrite ?concat_app; simpl; rewrite ?app_nil_r; reflexivity.
  - destruct (n <? cl + List.length s)%nat; rewrite IH.
    + destruct cur as [| c cur]; simpl; rewrite ?concat_app; simpl;
        rewrite ?app_nil_r, ?app_assoc; reflexivity.
    + rewrite concat_app. simpl. rewrite app_nil_r, !app_assoc. reflexivity.
Qed.

(** A chunk is within the bound, or it is a single sentence above it. *)
Definition chunk_ok (n : nat) (S : list text) (c : text) : Prop :=
  (List.length c <= n)%nat \/ (In c S /\ (n < List.length c)%nat).

Lemma chunk_loop_ok (n : nat) (S : list text) (ss chunks cur : list text) (cl : nat) :
  incl ss S ->
  cl = List.length (List.concat cur) ->
  (forall c, In c chunks -> chunk_ok n S c) ->
  chunk_ok n S (List.concat cur) ->
  (forall c, In c (chunk_loop n ss chunks cur cl) -> chunk_ok n S c).
Proof.
  revert chunks cur cl. induction ss as [| s ss IH]; intros chunks cur cl Hincl Hcl Hch Hcur; simpl.
  - intros c Hc. destruct cur; [now apply Hch |].
    apply in_app_or in Hc as [Hc | [<- | []]]; [now apply Hch | exact Hcur].
  - assert (Hs : In s S) by (apply Hincl; left; reflexivity).
    assert (Hincl' : incl ss S) by (intros x Hx; apply Hincl; right; exact Hx).
    destruct (n <? cl + List.length s)%nat eqn:E.
    + apply IH; auto.
      * simpl. rewrite app_nil_r. reflexivity.
      * intros c Hc. destruct cur; [now apply Hch |].
        apply in_app_or in Hc as [Hc | [<- | []]]; [now apply Hch | exact Hcur].
      * simpl. rewrite app_nil_r. unfold chunk_ok.
        destruct (le_lt_dec (List.length s) n); [left; exact l | right; auto].
    + apply Nat.ltb_ge in E. apply IH; auto.
      * rewrite concat_app, length_app. simpl. rewrite app_nil_r. lia.
      * left. rewrite concat_app, length_app. simpl. rewrite app_nil_r. lia.
Qed.

End ChunkingFacts.

(** C3: removing whitespace, the concatenation of the chunks produced by
    [chunk_text] is the original text; every chunk has at most 500
    characters unless it is a single sentence (a delimiter-terminated
    [full_sentence] of the loop) longer than 500 characters, kept whole. *)
Theorem chunk_text_reconstructs_and_bounded (t : text) :
  Chunking.remove_ws (List.concat (Chunking.chunk_text t)) = Chunking.remove_ws t /\
  (forall c, In c (Chunking.chunk_text t) ->
     (List.length c <= 500)%nat
     \/ (In c (Chunking.full_sentences t) /\ (500 < List.length c)%nat)).
Proof.
  split.
  - unfold Chunking.chunk_text, Chunking.chunk_text_sized.
    rewrite ChunkingFacts.concat_chunk_loop. simpl.
    unfold Chunking.full_sentences. rewrite ChunkingFacts.concat_pair_up. apply ChunkingFacts.remove_ws_sentences.
  - intros c Hc.
    apply (ChunkingFacts.chunk_loop_ok 500 (Chunking.full_sentences t)
             (Chunking.full_sentences t) [] [] 0) in Hc; auto.
    + intros x Hx; exact Hx.
    + intros x [].
    + left. simpl. lia.
Qed.

Module CorrectionsFacts.
Import Corrections.

Definition compiles (src : text) : bool :=
  match compile src with Some _ => true | None => false end.

(** Every pattern string of the correction pass is accepted by the parser,
    so [pat] never falls back to [never] on them. *)
Lemma table_compiles :
  forallb (fun e => compiles (fst e)) corrections_map = true
  /\ compiles clinical_pattern = true
  /\ compiles (u "i\.e\.,?\s*(\d+)") = true /\ compiles (u "~\s+(\d+)") = true
  /\ compiles (u "([≤≥])\s+(\d+)") = true
  /\ compiles (u "treatment[- ]emergent\s+adverse\s+event") = true
  /\ compiles (u "serious\s+adverse\s+event") = true
  /\ compiles (u "adverse\s+event") = true
  /\ compiles (u "adverse\s+drug\s+reaction") = true.
Proof. vm_compute. repeat split. Qed.

(** The unit cases of tests/test_style_rules.py reproduced by the model. *)
Lemma test_cases_sample :
  corrected_text (u "100mg dose") = u "100 mg dose"
  /\ corrected_text (u "phase i trial") = u "Phase 1 trial"
  /\ corrected_text (u "submitted to fda") = u "submitted to FDA"
  /\ corrected_text (u "greater than or equal to 100") = u "≥100"
  /\ corrected_text (u "mean (sd)") = u "mean (SD)"
  /\ corrected_text (u "refer to appendix A") = u "refer to Appendix A"
  /\ corrected_text (u "quality of life assessment") = u "quality of life (QoL) assessment".
Proof. vm_compute. repeat split. Qed.

End CorrectionsFacts.

(** C1 (code bug): the correction pass is not idempotent. The first pass
    skips every table entry mentioning "adverse", "event" or "reaction"
    (those carrying the negative look-ahead), and the clinical-term pass
    that replaces them has no look-ahead: re-applying the pass to
    "adverse event (AE)" appends a second "(AE)". *)
Theorem apply_style_corrections_reappends_AE :
  Corrections.corrected_text (u "adverse event") = u "adverse event (AE)"
  /\ Corrections.corrected_text (Corrections.corrected_text (u "adverse event"))
     = u "adverse event (AE) (AE)".
Proof. vm_compute. split; reflexivity. Qed.

(** C2 (code bug): the two precedence examples hold, but
    [replace_clinical_term] decides by plain substring tests with single
    spaces while the alternation matches [\s+]: the span
    "serious  adverse event" (two spaces), matched by the
    [serious\s+adverse\s+event] branch, is tagged "(AE)", and a
    treatment-emergent span with a double space is tagged "(AE)" too. *)
Theorem clinical_precedence_examples_and_whitespace_slip :
  Corrections.corrected_text (u "treatment emergent adverse event")
    = u "treatment-emergent adverse event (TEAE)"
  /\ Corrections.corrected_text (u "serious adverse event occurred")
    = u "serious adverse event (SAE) occurred"
  /\ Corrections.corrected_text (u "serious  adverse event")
    = u "serious  adverse event (AE)"
  /\ Corrections.corrected_text (u "treatment  emergent adverse event")
    = u "treatment  emergent adverse event (AE)".
Proof. vm_compute. repeat split. Qed.

Module FaissFacts.
Import Faiss.
Local Open Scope Q_scope.

Lemma sqdist_nonneg (a b : vec) : 0 <= sqdist a b.
Proof.
  revert b. induction a as [| x a IH]; intros [| y b]; simpl; try apply Qle_refl.
  apply (Qle_trans _ (0 + 0)); [apply Qle_refl |]. apply Qplus_le_compat; [| apply IH].
  destruct (Qlt_le_dec (x - y) 0).
  - setoid_replace ((x - y) * (x - y)) with ((y - x) * (y - x)) by ring.
    apply Qmult_le_0_compat; lra.
  - apply Qmult_le_0_compat; lra.
Qed.

Definition le_fst (x y : Q * Z) : Prop := fst x <= fst y.

Lemma insert_hit_hd (a h : Q * Z) (l : list (Q * Z)) :
  HdRel le_fst a l -> le_fst a h -> HdRel le_fst a (insert_hit h l).
Proof.
  intros Hd Ha. destruct l as [| x l]; simpl; [constructor; exact Ha |].
  destruct (Qle_bool (fst x) (fst h)); constructor; [inversion Hd; assumption | exact Ha].
Qed.

Lemma insert_hit_sorted (h : Q * Z) (l : list (Q * Z)) :
  Sorted le_fst l -> Sorted le_fst (insert_hit h l).
Proof.
  induction l as [| x l IH]; intros Hs; simpl; [repeat constructor |].
  destruct (Qle_bool (fst x) (fst h)) eqn:E.
  - apply Sorted_inv in Hs as [Hs Hd]. constructor; [apply IH; exact Hs |].
    apply insert_hit_hd; [exact Hd |]. apply Qle_bool_iff. exact E.
  - constructor; [exact Hs |]. constructor. unfold le_fst.
    apply Qlt_le_weak, Qnot_le_lt. intro C. apply Qle_bool_iff in C. congruence.
Qed.

Lemma insert_hit_forall (P : Q * Z -> Prop) (h : Q * Z) (l : list (Q * Z)) :
  P h -> Forall P l -> Forall P (insert_hit h l).
Proof.
  intros Hh Hl. induction Hl as [| x l Hx Hl IH]; simpl; [constructor; auto |].
  destruct (Qle_bool (fst x) (fst h)); constructor; auto.
Qed.

Lemma insert_hit_length (h : Q * Z) (l : list (Q * Z)) :
  List.length (insert_hit h l) = S (List.length l).
Proof.
  induction l as [| x l IH]; simpl; [reflexivity |].
  destruct (Qle_bool (fst x) (fst h)); simpl; [rewrite IH |]; reflexivity.
Qed.

Lemma sort_hits_props (l : list (Q * Z)) (P : Q * Z -> Prop) :
  Forall P l ->
  Sorted le_fst (sort_hits l) /\ Forall P (sort_hits l)
  /\ List.length (sort_hits l) = List.length l.
Proof.
  unfold sort_hits. intros Hl.
  assert (G : forall acc, Sorted le_fst acc -> Forall P acc ->
            Sorted le_fst (fold_left (fun acc h => insert_hit h acc) l acc)
            /\ Forall P (fold_left (fun acc h => insert_hit h acc) l acc)
            /\ List.length (fold_left (fun acc h => insert_hit h acc) l acc)
               = (List.length l + List.length acc)%nat).
  { induction Hl as [| x l Hx Hl IH]; intros acc Hs Hp; simpl; [auto |].
    destruct (IH (insert_hit x acc)) as [A [B C]].
    - apply insert_hit_sorted; exact Hs.
    - apply insert_hit_forall; assumption.
    - rewrite insert_hit_length in C. repeat split; auto. lia. }
  destruct (G [] (Sorted_nil _) (Forall_nil _)) as [A [B C]]. simpl in C.
  repeat split; auto. lia.
Qed.

Lemma with_ids_length (vs : list vec) (i : Z) : List.length (with_ids vs i) = List.length vs.
Proof. revert i. induction vs; intro i; simpl; [| rewrite IHvs]; reflexivity. Qed.

(** Order of hits: finite distances ascending, +inf padding last. *)
Definition hit_le (h1 h2 : hit) : Prop :=
  match h_dist h1, h_dist h2 with
  | Some a, Some b => a <= b
  | _, None => True
  | None, Some _ => False
  end.

Lemma hit_le_trans : Transitive hit_le.
Proof.
  intros [i1 [a|]] [i2 [b|]] [i3 [c|]]; unfold hit_le; simpl; intros; try contradiction; auto.
  eapply Qle_trans; eassumption.
Qed.

Lemma le_fst_trans : Transitive le_fst.
Proof. intros x y z; unfold le_fst; apply Qle_trans. Qed.

Lemma ss_firstn {A : Type} (R : A -> A -> Prop) (l : list A) (n : nat) :
  StronglySorted R l -> StronglySorted R (firstn n l).
Proof.
  revert n. induction l as [| x l IH]; intros [| n] Hs; simpl; try constructor.
  - apply StronglySorted_inv in Hs as [Hs Hf]. apply IH; exact Hs.
  - apply StronglySorted_inv in Hs as [Hs Hf].
    rewrite Forall_forall in *. intros y Hy. apply Hf.
    rewrite <- (firstn_skipn n l). apply in_or_app. left. exact Hy.
Qed.

Lemma ss_map {A B : Type} (R : B -> B -> Prop) (R' : A -> A -> Prop) (f : A -> B) (l : list A) :
  (forall x y, R' x y -> R (f x) (f y)) -> StronglySorted R' l -> StronglySorted R (map f l).
Proof.
  intros Hf Hs. induction Hs as [| x l Hs IH Hx]; simpl; constructor; [exact IH |].
  apply Forall_map. eapply Forall_impl; [| exact Hx]. intros y; apply Hf.
Qed.

Lemma ss_app {A : Type} (R : A -> A -> Prop) (l1 l2 : list A) :
  StronglySorted R l1 -> StronglySorted R l2 ->
  (forall x y, In x l1 -> In y l2 -> R x y) -> StronglySorted R (l1 ++ l2).
Proof.
  intros H1 H2 H12. induction H1 as [| x l1 H1 IH Hx]; simpl; [exact H2 |].
  constructor.
  - apply IH. intros a b Ha Hb. apply H12; [right |]; assumption.
  - apply Forall_app; split; [exact Hx |].
    apply Forall_forall. intros y Hy. apply H12; [left; reflexivity | exact Hy].
Qed.

Lemma ss_repeat {A : Type} (R : A -> A -> Prop) (x : A) (n : nat) :
  R x x -> StronglySorted R (repeat x n).
Proof.
  intros Hx. induction n as [| n IH]; simpl; constructor; [exact IH |].
  apply Forall_forall. intros y Hy. apply repeat_spec in Hy. subst. exact Hx.
Qed.

Lemma in_firstn {A : Type} (x : A) (n : nat) (l : list A) : In x (firstn n l) -> In x l.
Proof. intro H. rewrite <- (firstn_skipn n l). apply in_or_app. left. exact H. Qed.

Lemma search_unfold (idx : list vec) (q : vec) (k : nat) : k <> O ->
  search idx q k =
  Some (map (fun '(d, i) => {| h_label := i; h_dist := Some d |})
          (firstn k (sort_hits (map (fun '(v, i) => (sqdist q v, i)) (with_ids idx 0))))
        ++ repeat {| h_label := (-1)%Z; h_dist := None |} (k - List.length idx)).
Proof. destruct k; [contradiction | reflexivity]. Qed.

Lemma Some_inj {A : Type} (x y : A) : Some x = Some y -> x = y.
Proof. congruence. Qed.

(** What [search] returns: [k] hits, sorted, every finite distance the
    squared distance to a stored vector. *)
Lemma search_spec (idx : list vec) (q : vec) (k : nat) (hs : list hit) :
  search idx q k = Some hs ->
  List.length hs = k /\ StronglySorted hit_le hs
  /\ (forall h d, In h hs -> h_dist h = Some d -> 0 <= d).
Proof.
  intro E. assert (Ek : k <> O) by (destruct k; [discriminate | lia]).
  rewrite (search_unfold idx q k Ek) in E. apply Some_inj in E. subst hs.
  set (l := map (fun '(v, i) => (sqdist q v, i)) (with_ids idx 0)).
  destruct (sort_hits_props l (fun x => 0 <= fst x)) as [Hs [Hf Hl]].
  { unfold l. apply Forall_forall. intros x Hx. apply in_map_iff in Hx as [[v i] [<- _]].
    apply sqdist_nonneg. }
  repeat split.
  - rewrite length_app, length_map, length_firstn, repeat_length, Hl.
    unfold l. rewrite length_map, with_ids_length. lia.
  - apply ss_app.
    + apply (ss_map hit_le le_fst); [intros [a i] [b j]; unfold hit_le, le_fst; simpl; auto |].
      apply ss_firstn. apply (Sorted_StronglySorted le_fst_trans). exact Hs.
    + apply ss_repeat. unfold hit_le. simpl. exact I.
    + intros x y _ Hy. apply repeat_spec in Hy. subst y. unfold hit_le.
      destruct (h_dist x); simpl; exact I.
  - intros h d Hh Hd. apply in_app_or in Hh as [Hh | Hh].
    + apply in_map_iff in Hh as [[a i] [<- Ha]]. simpl in Hd. injection Hd as <-.
      apply in_firstn in Ha. rewrite Forall_forall in Hf. apply (Hf _ Ha).
    + apply repeat_spec in Hh. subst h. discriminate.
Qed.

End FaissFacts.

Module PipelineFacts.
Import Extractor Faiss FaissFacts.
Local Open Scope Q_scope.

(** The number of hits with a finite distance (real stored vectors). *)
Fixpoint n_finite (hs : list hit) : nat :=
  match hs with
  | [] => O
  | h :: hs' => match h_dist h with Some _ => S (n_finite hs') | None => n_finite hs' end
  end.

Lemma n_finite_le (hs : list hit) : (n_finite hs <= List.length hs)%nat.
Proof. induction hs as [| h hs IH]; simpl; [| destruct (h_dist h)]; lia. Qed.

Lemma n_finite_app (a b : list hit) : n_finite (a ++ b) = (n_finite a + n_finite b)%nat.
Proof. induction a as [| h a IH]; simpl; [| destruct (h_dist h)]; lia. Qed.

Lemma search_finite (idx : list vec) (q : vec) (k : nat) (hs : list hit) :
  search idx q k = Some hs -> (n_finite hs <= Nat.min k (List.length idx))%nat.
Proof.
  intro E. assert (Ek : k <> O) by (destruct k; [discriminate | lia]).
  rewrite (search_unfold idx q k Ek) in E. apply Some_inj in E. subst hs.
  rewrite n_finite_app.
  assert (R : forall n, n_finite (repeat {| h_label := (-1)%Z; h_dist := None |} n) = O)
    by (induction n; simpl; auto).
  rewrite R.
  assert (M : forall l : list (Q * Z),
             n_finite (map (fun '(d, i) => {| h_label := i; h_dist := Some d |}) l)
             = List.length l)
    by (induction l as [| [d i] l IH]; simpl; auto).
  rewrite M, length_firstn.
  destruct (sort_hits_props (map (fun '(v, i) => (sqdist q v, i)) (with_ids idx 0))
              (fun _ => True)) as [_ [_ L]].
  { apply Forall_forall; auto. }
  rewrite L, length_map, with_ids_length. lia.
Qed.

Lemma collect_matches_spec (rules : list Rule) (ch : list Corrections.log_entry) (hs : list hit)
      (ms : list AppProcessor.csr_match) :
  StronglySorted hit_le hs -> AppProcessor.collect_matches rules ch hs = Some ms ->
  StronglySorted Qle (map AppProcessor.cm_distance ms)
  /\ (List.length ms <= n_finite hs)%nat
  /\ (forall m, In m ms -> exists h, In h hs /\ h_dist h = Some (AppProcessor.cm_distance m)).
Proof.
  revert ms. induction hs as [| h hs IH]; intros ms Hs E; simpl in E.
  - injection E as <-. simpl. repeat split; [constructor | lia | intros m []].
  - apply StronglySorted_inv in Hs as [Hs Hh]. destruct (dist_lt (h_dist h) 100).
    + destruct (py_index rules (h_label h)) as [r |]; [| discriminate].
      destruct (h_dist h) as [d |] eqn:Ehd; [| discriminate].
      destruct (AppProcessor.collect_matches rules ch hs) as [ms' |]; [| discriminate].
      injection E as <-. destruct (IH ms' Hs eq_refl) as [A [B C]].
      repeat split.
      * simpl. constructor; [exact A |]. apply Forall_forall. intros x Hx.
        apply in_map_iff in Hx as [m' [<- Hm']]. destruct (C m' Hm') as [h' [Hin Hd']].
        rewrite Forall_forall in Hh. specialize (Hh h' Hin). unfold hit_le in Hh.
        rewrite Ehd, Hd' in Hh. exact Hh.
      * simpl. rewrite Ehd. lia.
      * intros m [<- | Hm]; [exists h; split; [left; reflexivity | exact Ehd] |].
        destruct (C m Hm) as [h' [Hin Hd]]. exists h'. split; [right; exact Hin | exact Hd].
    + destruct (IH ms Hs E) as [A [B C]]. repeat split; [exact A | simpl; destruct (h_dist h); lia |].
      intros m Hm. destruct (C m Hm) as [h' [Hin Hd]]. exists h'. split; [right; exact Hin | exact Hd].
Qed.

Lemma matched_of_hits_cons (cs : list GuideProcessor.StyleChunk) (h : hit) (hs : list hit) :
  GuideCorrection.matched_of_hits cs (h :: hs) = GuideCorrection.matched_of_hits cs hs
  \/ exists d c, h_dist h = Some d /\ Qle_bool (3 # 2) d = false
       /\ GuideCorrection.matched_of_hits cs (h :: hs) =
          {| GuideCorrection.mr_rule := GuideProcessor.sc_content c;
             GuideCorrection.mr_type := GuideProcessor.sc_rule_type c;
             GuideCorrection.mr_section := GuideProcessor.sc_section c;
             GuideCorrection.mr_examples := GuideProcessor.sc_examples c;
             GuideCorrection.mr_confidence := 1 - d / 2 |} :: GuideCorrection.matched_of_hits cs hs.
Proof.
  simpl. destruct (h_dist h) as [d |]; [| left; reflexivity].
  destruct ((0 <=? h_label h)%Z && (h_label h <? Z.of_nat (List.length cs))%Z
            && negb (Qle_bool (3 # 2) d)) eqn:Eb; [| left; reflexivity].
  destruct (nth_error cs (Z.to_nat (h_label h))) as [c |]; [| left; reflexivity].
  destruct (GuideProcessor.sc_examples c) eqn:Ex; [left; reflexivity |].
  right. exists d, c. repeat split.
  - apply andb_true_iff in Eb as [_ Eb]. apply negb_true_iff in Eb. exact Eb.
  - rewrite Ex. reflexivity.
Qed.

Lemma matched_of_hits_spec (cs : list GuideProcessor.StyleChunk) (hs : list hit) :
  (forall m, In m (GuideCorrection.matched_of_hits cs hs) ->
     exists h d, In h hs /\ h_dist h = Some d /\ Qle_bool (3 # 2) d = false
                 /\ GuideCorrection.mr_confidence m = 1 - d / 2)
  /\ (List.length (GuideCorrection.matched_of_hits cs hs) <= n_finite hs)%nat
  /\ (StronglySorted hit_le hs ->
      StronglySorted (fun a b => GuideCorrection.mr_confidence b <= GuideCorrection.mr_confidence a)
                     (GuideCorrection.matched_of_hits cs hs)).
Proof.
  induction hs as [| h hs [IH1 [IH2 IH3]]]; [simpl; repeat split; [intros m [] | lia | constructor] |].
  destruct (matched_of_hits_cons cs h hs) as [E | [d [c [Ed [Eq E]]]]]; rewrite E.
  - repeat split.
    + intros m Hm. destruct (IH1 m Hm) as [h' [d' [A B]]]. exists h', d'. split; [right |]; assumption.
    + simpl. destruct (h_dist h); lia.
    + intros Hs. apply StronglySorted_inv in Hs as [Hs _]. apply IH3. exact Hs.
  - repeat split.
    + intros m [<- | Hm]; [exists h, d; repeat split; [left; reflexivity | exact Ed | exact Eq] |].
      destruct (IH1 m Hm) as [h' [d' [A B]]]. exists h', d'. split; [right |]; assumption.
    + simpl. rewrite Ed. lia.
    + intros Hs. apply StronglySorted_inv in Hs as [Hs Hh]. constructor; [apply IH3; exact Hs |].
      apply Forall_forall. intros m Hm. destruct (IH1 m Hm) as [h' [d' [A [B [_ D]]]]].
      rewrite Forall_forall in Hh. specialize (Hh h' A). unfold hit_le in Hh.
      rewrite Ed, B in Hh. simpl. rewrite D. unfold Qdiv. change (/ 2) with (1 # 2). lra.
Qed.

Lemma Qle_bool_false_lt (a b : Q) : Qle_bool a b = false -> b < a.
Proof. intro E. apply Qnot_le_lt. intro C. apply Qle_bool_iff in C. congruence. Qed.

End PipelineFacts.

(** C4 (amended): in both retrieval paths the number of matches is at most
    [min(3, n)], where [n] is the number of stored rules (app path) or
    chunks (style-guide path), and never more than the number of vectors
    stored in the index. The matches come in ascending distance (in the
    style-guide path, descending confidence), but only non-strictly: equal
    distances are possible. *)
Theorem retrieval_bounded_and_ordered :
  (forall (encode : text -> Faiss.vec) (st : AppProcessor.state) (chunk : text)
          (changes : list Corrections.log_entry) (ms : list AppProcessor.csr_match),
     AppProcessor.chunk_matches encode st chunk changes = Some ms ->
     (List.length ms <= Nat.min 3 (List.length (AppProcessor.style_rules st)))%nat
     /\ (forall idx, AppProcessor.index st = Some idx -> (List.length ms <= List.length idx)%nat)
     /\ Sorted Qle (map AppProcessor.cm_distance ms))
  /\ (forall (encode : text -> Faiss.vec) (st : GuideProcessor.state) (p : text)
             (ms : list GuideCorrection.matched_rule),
     GuideCorrection.paragraph_matches encode st p = Some ms ->
     (List.length ms <= Nat.min 3 (List.length (GuideProcessor.chunks st)))%nat
     /\ (List.length ms <= List.length (GuideProcessor.index st))%nat
     /\ Sorted (fun a b => (GuideCorrection.mr_confidence b <= GuideCorrection.mr_confidence a)%Q) ms).
Proof.
  split.
  - intros encode st chunk changes ms. unfold AppProcessor.chunk_matches.
    destruct (AppProcessor.index st) as [idx |] eqn:Ei.
    + destruct (Faiss.search idx (encode chunk) (Nat.min 3 (List.length (AppProcessor.style_rules st))))
        as [hs |] eqn:Es; [| discriminate].
      intro E. destruct (FaissFacts.search_spec _ _ _ _ Es) as [L [S _]].
      pose proof (PipelineFacts.search_finite _ _ _ _ Es) as F.
      pose proof (PipelineFacts.n_finite_le hs) as N.
      destruct (PipelineFacts.collect_matches_spec _ _ _ _ S E) as [A [B _]].
      repeat split.
      * lia.
      * intros idx' H. injection H as <-. lia.
      * apply StronglySorted_Sorted. exact A.
    + intro E. injection E as <-. simpl. repeat split; [lia | intros; simpl; lia | constructor].
  - intros encode st p ms. unfold GuideCorrection.paragraph_matches. cbv zeta.
    destruct (Nat.min 3 (List.length (GuideProcessor.chunks st))) as [| k] eqn:Ek.
    + intro E. injection E as <-. simpl. repeat split; [lia | lia | constructor].
    + destruct (Faiss.search (GuideProcessor.index st) (encode p) (S k)) as [hs |] eqn:Es;
        [| discriminate].
      intro E. injection E as <-.
      destruct (FaissFacts.search_spec _ _ _ _ Es) as [_ [S _]].
      pose proof (PipelineFacts.search_finite _ _ _ _ Es) as F.
      destruct (PipelineFacts.matched_of_hits_spec (GuideProcessor.chunks st) hs) as [_ [B C]].
      repeat split; [lia | lia |]. apply StronglySorted_Sorted. apply C. exact S.
Qed.

Lemma retrieval_bounded_and_ordered_witness :
  let r := {| Extractor.r_pattern := u "a"; Extractor.r_replacement := u "b";
              Extractor.r_description := []; Extractor.r_examples := [];
              Extractor.r_type := Extractor.DIRECT; Extractor.r_category := Extractor.FORMATTING |} in
  let enc := fun t : text => [inject_Z (Z.of_nat (List.length t))] in
  let st := AppProcessor.process_style_guide enc AppProcessor.init [(Extractor.FORMATTING, [r])] in
  let c := {| GuideProcessor.sc_content := u "patient"; GuideProcessor.sc_rule_type := u "terminology";
              GuideProcessor.sc_section := u "Terms"; GuideProcessor.sc_examples := [u "subject"];
              GuideProcessor.sc_embedding := [0%Q] |} in
  let gst := {| GuideProcessor.index := [[0%Q]]; GuideProcessor.chunks := [c] |} in
  exists ms gms,
    AppProcessor.chunk_matches enc st (u "x") [] = Some ms
    /\ (List.length ms <= Nat.min 3 (List.length (AppProcessor.style_rules st)))%nat
    /\ GuideCorrection.paragraph_matches (fun _ => [1%Q]) gst (u "p") = Some gms
    /\ (List.length gms <= Nat.min 3 (List.length (GuideProcessor.chunks gst)))%nat.
Proof.
  intros r enc st c gst. eexists. eexists. split; [vm_compute; reflexivity |]. split.
  - apply (proj1 retrieval_bounded_and_ordered enc st (u "x") []). vm_compute. reflexivity.
  - split; [vm_compute; reflexivity |].
    apply (proj2 retrieval_bounded_and_ordered (fun _ => [1%Q]) gst (u "p")).
    vm_compute. reflexivity.
Defined.

Lemma retrieval_order_not_strict :
  let r := {| Extractor.r_pattern := u "a"; Extractor.r_replacement := u "b";
              Extractor.r_description := []; Extractor.r_examples := [];
              Extractor.r_type := Extractor.DIRECT; Extractor.r_category := Extractor.FORMATTING |} in
  let enc := fun t : text => [inject_Z (Z.of_nat (List.length t))] in
  let st := AppProcessor.process_style_guide enc AppProcessor.init [(Extractor.FORMATTING, [r; r])] in
  option_map (map AppProcessor.cm_distance) (AppProcessor.chunk_matches enc st (u "x") [])
  = Some [4%Q; 4%Q].
Proof. vm_compute. reflexivity. Qed.

Module ConfidenceFacts.
Import Faiss.
Local Open Scope Q_scope.

Lemma with_ids_nth (vs : list vec) (j : Z) (v : vec) (i : Z) :
  In (v, i) (with_ids vs j) ->
  (j <= i)%Z /\ nth_error vs (Z.to_nat (i - j)) = Some v.
Proof.
  revert j. induction vs as [| w vs IH]; intros j; cbn [with_ids]; [intros [] |].
  intros [E | H].
  - injection E as <- <-. split; [lia |]. rewrite Z.sub_diag. reflexivity.
  - destruct (IH (j + 1)%Z H) as [A B]. split; [lia |].
    replace (Z.to_nat (i - j)) with (S (Z.to_nat (i - (j + 1)))) by lia. exact B.
Qed.

(** A finite search hit is a stored vector: its label is a position of the
    index and its distance the squared distance from the query to the
    vector stored there. *)
Lemma search_hit_src (idx : list vec) (q : vec) (k : nat) (hs : list hit) (h : hit) (d : Q) :
  search idx q k = Some hs -> In h hs -> h_dist h = Some d ->
  (0 <= h_label h)%Z /\ exists v, nth_error idx (Z.to_nat (h_label h)) = Some v /\ d = sqdist q v.
Proof.
  intros E Hh Hd. assert (Ek : k <> O) by (destruct k; [discriminate | lia]).
  rewrite (FaissFacts.search_unfold idx q k Ek) in E. apply FaissFacts.Some_inj in E. subst hs.
  set (l := map (fun '(v, i) => (sqdist q v, i)) (with_ids idx 0)).
  set (P := fun x : Q * Z => (0 <= snd x)%Z /\
              exists v, nth_error idx (Z.to_nat (snd x)) = Some v /\ fst x = sqdist q v).
  destruct (FaissFacts.sort_hits_props l P) as [_ [Hf _]].
  { unfold l. apply Forall_forall. intros x Hx. apply in_map_iff in Hx as [[v i] [<- Hin]].
    apply with_ids_nth in Hin as [A B]. unfold P. cbn [fst snd]. split; [lia |].
    exists v. rewrite Z.sub_0_r in B. split; [exact B | reflexivity]. }
  apply in_app_or in Hh as [Hh | Hh].
  - apply in_map_iff in Hh as [[a i] [<- Ha]]. cbn [h_dist h_label] in Hd |- *. injection Hd as <-.
    apply FaissFacts.in_firstn in Ha. rewrite Forall_forall in Hf.
    destruct (Hf _ Ha) as [A [v [B C]]]. split; [exact A |]. exists v. split; [exact B | exact C].
  - apply repeat_spec in Hh. subst h. discriminate.
Qed.

(** A matched rule comes from a hit below the threshold: the chunk at the
    hit's label, with confidence [1 - d/2] for the hit's distance [d]. *)
Lemma matched_of_hits_src (cs : list GuideProcessor.StyleChunk) (hs : list hit)
      (m : GuideCorrection.matched_rule) :
  In m (GuideCorrection.matched_of_hits cs hs) ->
  exists h d c, In h hs /\ h_dist h = Some d /\ Qle_bool (3 # 2) d = false
    /\ nth_error cs (Z.to_nat (h_label h)) = Some c
    /\ GuideCorrection.mr_rule m = GuideProcessor.sc_content c
    /\ GuideCorrection.mr_confidence m = 1 - d / 2.
Proof.
  induction hs as [| h hs IH]; cbn [GuideCorrection.matched_of_hits]; [intros [] |].
  assert (Tl : In m (GuideCorrection.matched_of_hits cs hs) ->
               exists h' d c, In h' (h :: hs) /\ h_dist h' = Some d /\ Qle_bool (3 # 2) d = false
                 /\ nth_error cs (Z.to_nat (h_label h')) = Some c
                 /\ GuideCorrection.mr_rule m = GuideProcessor.sc_content c
                 /\ GuideCorrection.mr_confidence m = 1 - d / 2).
  { intro H. destruct (IH H) as [h' [d [c [A B]]]]. exists h', d, c. split; [right; exact A | exact B]. }
  destruct (h_dist h) as [d |] eqn:Ed; [| exact Tl].
  destruct ((0 <=? h_label h)%Z && (h_label h <? Z.of_nat (List.length cs))%Z
            && negb (Qle_bool (3 # 2) d)) eqn:Eb; [| exact Tl].
  destruct (nth_error cs (Z.to_nat (h_label h))) as [c |] eqn:Ec; [| exact Tl].
  destruct (GuideProcessor.sc_examples c) eqn:Ex; [exact Tl |].
  intros [<- | H]; [| exact (Tl H)].
  exists h, d, c. split; [left; reflexivity |]. split; [exact Ed |].
  split; [apply andb_true_iff in Eb as [_ Eb]; apply negb_true_iff in Eb; exact Eb |].
  split; [exact Ec |]. split; reflexivity.
Qed.

End ConfidenceFacts.

(** C7: every match [m] of the style-guide path for a paragraph [p] comes
    from a hit [h] of the index search for [p]: the chunk stored at the
    hit's label, whose index vector [v] is at squared distance
    [d = sqdist (encode p) v] from the query, where [0 <= d < 1.5]; the
    confidence of [m] is [1 - d/2], which equals [max(0, 1 - d/2)] there,
    and lies in [[0, 1]]. *)
Theorem chunk_confidence_in_unit_interval (encode : text -> Faiss.vec)
        (st : GuideProcessor.state) (p : text) (ms : list GuideCorrection.matched_rule) :
  GuideCorrection.paragraph_matches encode st p = Some ms ->
  forall m, In m ms ->
    exists hs h d c v,
      Faiss.search (GuideProcessor.index st) (encode p)
                   (Nat.min 3 (List.length (GuideProcessor.chunks st))) = Some hs
      /\ In h hs /\ Faiss.h_dist h = Some d
      /\ nth_error (GuideProcessor.chunks st) (Z.to_nat (Faiss.h_label h)) = Some c
      /\ GuideCorrection.mr_rule m = GuideProcessor.sc_content c
      /\ nth_error (GuideProcessor.index st) (Z.to_nat (Faiss.h_label h)) = Some v
      /\ d = Faiss.sqdist (encode p) v
      /\ (0 <= d /\ d < 3 # 2
          /\ GuideCorrection.mr_confidence m = 1 - d / 2
          /\ GuideCorrection.mr_confidence m == Qmax 0 (1 - d / 2)
          /\ 0 <= GuideCorrection.mr_confidence m
          /\ GuideCorrection.mr_confidence m <= 1)%Q.
Proof.
  unfold GuideCorrection.paragraph_matches. cbv zeta.
  destruct (Nat.min 3 (List.length (GuideProcessor.chunks st))) as [| k] eqn:Ek.
  - intros E m Hm. injection E as <-. destruct Hm.
  - destruct (Faiss.search (GuideProcessor.index st) (encode p) (S k)) as [hs |] eqn:Es;
      [| discriminate].
    intros E m Hm. injection E as <-.
    destruct (ConfidenceFacts.matched_of_hits_src _ _ _ Hm) as [h [d [c [Hin [Hd [Hb [Hc [Hr Hconf]]]]]]]].
    destruct (ConfidenceFacts.search_hit_src _ _ _ _ _ _ Es Hin Hd) as [_ [v [Hv Hdv]]].
    destruct (FaissFacts.search_spec _ _ _ _ Es) as [_ [_ N]].
    pose proof (N h d Hin Hd) as Hn. apply PipelineFacts.Qle_bool_false_lt in Hb.
    exists hs, h, d, c, v. split; [reflexivity |]. split; [exact Hin |]. split; [exact Hd |].
    split; [exact Hc |]. split; [exact Hr |]. split; [exact Hv |]. split; [exact Hdv |].
    rewrite Hconf. unfold Qdiv. change (/ 2)%Q with (1 # 2)%Q.
    repeat split; try lra. symmetry. apply Q.max_r. lra.
Qed.

Lemma chunk_confidence_in_unit_interval_witness :
  let c := {| GuideProcessor.sc_content := u "patient"; GuideProcessor.sc_rule_type := u "terminology";
              GuideProcessor.sc_section := u "Terms"; GuideProcessor.sc_examples := [u "subject"];
              GuideProcessor.sc_embedding := [0%Q] |} in
  let gst := {| GuideProcessor.index := [[0%Q]]; GuideProcessor.chunks := [c] |} in
  exists ms, GuideCorrection.paragraph_matches (fun _ => [1%Q]) gst (u "p") = Some ms
    /\ ms <> []
    /\ forall m, In m ms ->
    exists hs h d c v,
      Faiss.search (GuideProcessor.index gst) [1%Q]
                   (Nat.min 3 (List.length (GuideProcessor.chunks gst))) = Some hs
      /\ In h hs /\ Faiss.h_dist h = Some d
      /\ nth_error (GuideProcessor.chunks gst) (Z.to_nat (Faiss.h_label h)) = Some c
      /\ GuideCorrection.mr_rule m = GuideProcessor.sc_content c
      /\ nth_error (GuideProcessor.index gst) (Z.to_nat (Faiss.h_label h)) = Some v
      /\ d = Faiss.sqdist [1%Q] v
      /\ (0 <= d /\ d < 3 # 2
          /\ GuideCorrection.mr_confidence m = 1 - d / 2
          /\ GuideCorrection.mr_confidence m == Qmax 0 (1 - d / 2)
          /\ 0 <= GuideCorrection.mr_confidence m
          /\ GuideCorrection.mr_confidence m <= 1)%Q.
Proof.
  intros c gst. eexists. split; [vm_compute; reflexivity |]. split; [discriminate |].
  apply (chunk_confidence_in_unit_interval (fun _ => [1%Q]) gst (u "p")).
  vm_compute. reflexivity.
Defined.

Module PrecursorFacts.

Lemma process_chunks_init_no_matches (encode : text -> Faiss.vec) (cs : list text) :
  exists rs, AppProcessor.process_chunks encode AppProcessor.init cs = Some rs
             /\ map AppProcessor.cr_text rs = cs
             /\ Forall (fun r => AppProcessor.cr_matches r = []) rs.
Proof.
  induction cs as [| c cs [rs [E [T F]]]];
    [exists []; split; [reflexivity | split; [reflexivity | constructor]] |].
  cbn [AppProcessor.process_chunks]. destruct (Corrections.apply_style_corrections c) as [ct changes].
  unfold AppProcessor.chunk_matches. cbn [AppProcessor.index AppProcessor.init]. rewrite E.
  eexists. split; [reflexivity |]. split; [cbn [map AppProcessor.cr_text]; rewrite T; reflexivity |].
  constructor; [reflexivity | exact F].
Qed.

End PrecursorFacts.

(** C5 (amended): the precursor check exists in the style-guide processor
    and in the [/upload/csr] endpoint, not in [DocumentProcessor.process_csr].
    (a) [process_csr_document] on a processor with no chunks (in particular
    a fresh one) fails with [ValueError] and its message; (b) the endpoint,
    on a valid DOCX upload while no style guide was processed, answers
    HTTP 400 [Please upload a style guide first]; (c) [process_csr] on a
    fresh [DocumentProcessor] does not fail: it returns one result for
    every chunk of [chunk_text] of the document text, in order, each with
    an empty list of matches. *)
Theorem precursor_check_locations :
  (forall show_conf sort_desc encode (st : GuideProcessor.state) (paragraphs : list text),
     GuideProcessor.chunks st = [] ->
     GuideCorrection.process_csr_document show_conf sort_desc encode st paragraphs
     = inl (GuideCorrection.ValueError GuideCorrection.no_guide_msg))
  /\ (forall encode extract (s : Api.session) (filename content_type path : text),
        Api.validate_docx filename content_type = None ->
        Api.style_guide_processed s = false ->
        Api.upload_csr encode extract s filename content_type path
        = inl {| Api.status_code := 400; Api.detail := u "Please upload a style guide first" |})
  /\ (forall encode extract (path : text),
        exists rs, AppProcessor.process_csr encode extract AppProcessor.init path = Some rs
                   /\ map AppProcessor.cr_text rs = Chunking.chunk_text (extract path)
                   /\ Forall (fun r => AppProcessor.cr_matches r = []) rs).
Proof.
  repeat split.
  - intros show_conf sort_desc encode st paragraphs H.
    unfold GuideCorrection.process_csr_document. rewrite H. reflexivity.
  - intros encode extract s filename content_type path Hv Hs.
    unfold Api.upload_csr. rewrite Hv, Hs. reflexivity.
  - intros encode extract path. apply PrecursorFacts.process_chunks_init_no_matches.
Qed.

Lemma precursor_check_locations_witness :
  GuideCorrection.process_csr_document (fun _ => []) (fun l => Some l) (fun _ => [])
    GuideProcessor.init [u "The patient was dosed."]
  = inl (GuideCorrection.ValueError GuideCorrection.no_guide_msg)
  /\ Api.upload_csr (fun _ => []) (fun _ => u "x.")
       {| Api.style_guide_processed := false; Api.doc_processor := AppProcessor.init |}
       (u "report.docx") Api.docx_type (u "/tmp/report.docx")
     = inl {| Api.status_code := 400; Api.detail := u "Please upload a style guide first" |}.
Proof.
  split.
  - apply (proj1 precursor_check_locations). reflexivity.
  - apply (proj1 (proj2 precursor_check_locations)); vm_compute; reflexivity.
Defined.

Lemma process_csr_succeeds_without_guide :
  AppProcessor.process_csr (fun _ => []) (fun _ => u "x.") AppProcessor.init (u "/tmp/report.docx")
  = Some [{| AppProcessor.cr_text := u "x."; AppProcessor.cr_corrected_text := u "x.";
             AppProcessor.cr_matches := []; AppProcessor.cr_changes := [] |}].
Proof. vm_compute. reflexivity. Qed.

Module ExtractorFacts.

Lemma filter_some_in {A : Type} (x : A) (l : list (option A)) :
  In (Some x) l -> In x (Extractor.filter_some l).
Proof.
  induction l as [| [y |] l IH]; simpl; [intros [] | |].
  - intros [E | H]; [injection E as ->; left; reflexivity | right; apply IH; exact H].
  - intros [E | H]; [discriminate | apply IH; exact H].
Qed.

End ExtractorFacts.

(** C6 (amended): extraction does not stop at the first matching pattern.
    For every non-blank sentence [s] of the text, every pattern [src] of
    [rule_patterns] and every match [mo] of [re.finditer(src, s.strip())]
    that captures both a pattern and a replacement, the rule built from
    [mo] is among the extracted rules; one segment can yield several rules. *)
Theorem extract_rules_collects_every_match (sents : text -> list text) (t s : text)
        (src : text) (mo : Regex.mobj) (r : Extractor.Rule) :
  In s (sents t) -> Chunking.nonempty (strip s) = true ->
  In src Extractor.rule_patterns ->
  In mo (Regex.finditer (Regex.pat src) (strip s)) ->
  Extractor.build_rule (Regex.pat src) (strip s) mo = Some r ->
  In r (Extractor.extract_rules sents t).
Proof.
  intros Hs Hn Hp Hm Hb. unfold Extractor.extract_rules. apply in_flat_map.
  exists s. split; [exact Hs |]. cbv zeta. rewrite Hn.
  unfold Extractor.rules_of_segment. apply in_flat_map. exists src. split; [exact Hp |].
  apply ExtractorFacts.filter_some_in. rewrite <- Hb. apply in_map. exact Hm.
Qed.

Lemma extract_rules_collects_every_match_witness :
  let p := Regex.pat (nth 2 Extractor.rule_patterns []) in
  let s := strip (u "a -> b => c") in
  match Regex.finditer p s with
  | mo :: _ =>
      match Extractor.build_rule p s mo with
      | Some r => In r (Extractor.extract_rules (fun t => [t]) (u "a -> b => c"))
      | None => False
      end
  | [] => False
  end.
Proof.
  intros p s. destruct (Regex.finditer p s) as [| mo rest] eqn:Ef;
    [vm_compute in Ef; discriminate |].
  destruct (Extractor.build_rule p s mo) as [r |] eqn:Eb.
  - apply (extract_rules_collects_every_match (fun t => [t]) (u "a -> b => c") (u "a -> b => c")
             (nth 2 Extractor.rule_patterns []) mo r).
    + left. reflexivity.
    + vm_compute. reflexivity.
    + apply nth_In. apply Nat.ltb_lt. vm_compute. reflexivity.
    + fold p s. rewrite Ef. left. reflexivity.
    + exact Eb.
  - vm_compute in Ef. injection Ef as <- _. vm_compute in Eb. discriminate.
Defined.

Lemma one_segment_two_rules :
  map (fun r => (Extractor.r_pattern r, Extractor.r_replacement r, Extractor.r_type r))
      (Extractor.extract_rules (fun t => [t]) (u "a -> b => c"))
  = [(u "a -> b", u "c", Extractor.MULTI); (u "a", u "b => c", Extractor.CASE)].
Proof. vm_compute. reflexivity. Qed.

Module RuleTypeFacts.
Import Extractor.

Lemma text_eqb_eq (a b : text) : text_eqb a b = true <-> a = b.
Proof.
  revert b. induction a as [| x a IH]; intros [| y b]; simpl; split; intro H;
    try discriminate; try reflexivity.
  - apply andb_true_iff in H as [H1 H2]. apply Z.eqb_eq in H1. apply IH in H2. subst. reflexivity.
  - injection H as -> ->. apply andb_true_iff. split; [apply Z.eqb_refl | apply IH; reflexivity].
Qed.

End RuleTypeFacts.




Module IngestionFacts.

(** What holds: one style-guide ingestion appends exactly the embeddings of
    the new chunks, so from a fresh processor index and chunks agree. *)
Lemma preprocess_pdf_index (encode : text -> Faiss.vec) (split_text : text -> list text)
      (st : GuideProcessor.state) (pages : list (option text)) :
  let st' := GuideProcessor.preprocess_pdf encode split_text st pages in
  GuideProcessor.index st' = GuideProcessor.index st ++ map GuideProcessor.sc_embedding (GuideProcessor.chunks st').
Proof. reflexivity. Qed.

Lemma preprocess_pdf_init_lockstep (encode : text -> Faiss.vec) (split_text : text -> list text)
      (pages : list (option text)) :
  let st' := GuideProcessor.preprocess_pdf encode split_text GuideProcessor.init pages in
  GuideProcessor.index st' = map GuideProcessor.sc_embedding (GuideProcessor.chunks st').
Proof. reflexivity. Qed.

(** The app path rebuilds its index from the rules when there is at least one. *)
Lemma process_style_guide_lockstep (encode : text -> Faiss.vec) (st : AppProcessor.state)
      (rules : list (Extractor.RuleCategory * list Extractor.Rule)) :
  flat_map snd rules <> [] ->
  let st' := AppProcessor.process_style_guide encode st rules in
  AppProcessor.index st' = Some (map (fun r => encode (AppProcessor.rule_text r)) (AppProcessor.style_rules st')).
Proof.
  intros H. unfold AppProcessor.process_style_guide. cbv zeta.
  destruct (flat_map snd rules) as [| r rs]; [contradiction |]. simpl.
  rewrite map_map. reflexivity.
Qed.

End IngestionFacts.

(** C9 (code bug): ingestion does not keep the index and the stored
    collection in lock-step. A second [preprocess_pdf] of the same
    one-chunk guide leaves 2 vectors in [self.index] and 1 chunk in
    [self.chunks] (the chunk list is replaced, the index only grows); in
    the app path, [process_style_guide] with no rules after one with a rule
    keeps the old one-vector index while [style_rules] becomes empty. *)
Theorem ingestion_breaks_lockstep :
  let enc := fun t : text => [inject_Z (Z.of_nat (List.length t))] in
  let page := Some (u "# Dosing" ++ [10] ++
    u "Doses are given in mg and must be written with a space before the unit. Example: 10 mg daily.") in
  let st1 := GuideProcessor.preprocess_pdf enc (fun s => [s]) GuideProcessor.init [page] in
  let st2 := GuideProcessor.preprocess_pdf enc (fun s => [s]) st1 [page] in
  let r := {| Extractor.r_pattern := u "colour"; Extractor.r_replacement := u "color";
              Extractor.r_description := u "colour -> color"; Extractor.r_examples := [];
              Extractor.r_type := Extractor.CASE; Extractor.r_category := Extractor.FORMATTING |} in
  let a1 := AppProcessor.process_style_guide enc AppProcessor.init [(Extractor.FORMATTING, [r])] in
  let a2 := AppProcessor.process_style_guide enc a1 [] in
  List.length (GuideProcessor.index st1) = 1%nat /\ List.length (GuideProcessor.chunks st1) = 1%nat
  /\ List.length (GuideProcessor.index st2) = 2%nat /\ List.length (GuideProcessor.chunks st2) = 1%nat
  /\ GuideProcessor.index st2 <> map GuideProcessor.sc_embedding (GuideProcessor.chunks st2)
  /\ AppProcessor.index a2 = Some [enc (AppProcessor.rule_text r)]
  /\ AppProcessor.style_rules a2 = [].
Proof.
  intros enc page st1 st2 r a1 a2.
  repeat split; try (vm_compute; reflexivity).
  vm_compute. discriminate.
Qed.

Module ApplyRulesFacts.
Import GuideCorrection.









Lemma text_eqb_refl (a : text) : text_eqb a a = true.
Proof. apply RuleTypeFacts.text_eqb_eq. reflexivity. Qed.

Section Steps.
Variable show_conf : Q -> text.



End Steps.




End ApplyRulesFacts.



Module StripFacts.

Lemma lstrip_suffix (t : text) : exists p, t = p ++ lstrip t.
Proof.
  induction t as [| c t [p Hp]]; [exists []; reflexivity |]. cbn [lstrip].
  destruct (is_space c); [exists (c :: p); simpl; rewrite <- Hp; reflexivity | exists []; reflexivity].
Qed.

Lemma lstrip_head (t : text) (c : char) (r : text) : lstrip t = c :: r -> is_space c = false.
Proof.
  induction t as [| d t IH]; cbn [lstrip]; [discriminate |].
  destruct (is_space d) eqn:E; [exact IH | intro H; injection H as <- _; exact E].
Qed.

Lemma lstrip_noop (t : text) : (forall c r, t = c :: r -> is_space c = false) -> lstrip t = t.
Proof.
  destruct t as [| c r]; intro H; [reflexivity |]. cbn [lstrip]. rewrite (H c r eq_refl). reflexivity.
Qed.

Lemma lstrip_idem (t : text) : lstrip (lstrip t) = lstrip t.
Proof. apply lstrip_noop. intros c r H. exact (lstrip_head t c r H). Qed.

(** [str.strip] is idempotent. *)
Lemma strip_idem (t : text) : strip (strip t) = strip t.
Proof.
  unfold strip. set (y := lstrip t). set (z := lstrip (rev y)).
  assert (Hz : lstrip (rev z) = rev z).
  { apply lstrip_noop. intros c r Hc.
    destruct (lstrip_suffix (rev y)) as [p Hp]. fold z in Hp.
    assert (Hy : y = rev z ++ rev p)
      by (rewrite <- (rev_involutive y), Hp, rev_app_distr; reflexivity).
    rewrite Hc in Hy. exact (lstrip_head t c (r ++ rev p) Hy). }
  rewrite Hz, rev_involutive. unfold z. rewrite lstrip_idem. reflexivity.
Qed.

End StripFacts.

Module GuideTextFacts.
Import GuideProcessor.

Definition section_ok (s : text * text) : Prop :=
  Chunking.nonempty (fst s) = true /\ strip (snd s) = snd s.

Lemma section_step_ok (st : list (text * text) * text * list text) (line : text) :
  Forall section_ok (fst (fst st)) -> Forall section_ok (fst (fst (section_step st line))).
Proof.
  destruct st as [[secs cur] content]. cbn [fst]. intro H. unfold section_step.
  destruct (first_heading heading_patterns (strip line)); cbn [fst]; [| exact H].
  destruct (Chunking.nonempty cur) eqn:E; [| exact H].
  apply Forall_app. split; [exact H |]. constructor; [| constructor].
  split; [exact E | apply StripFacts.strip_idem].
Qed.

Lemma extract_sections_ok (t title content : text) :
  In (title, content) (GuideProcessor.extract_sections t) ->
  Chunking.nonempty title = true /\ strip content = content.
Proof.
  unfold GuideProcessor.extract_sections.
  assert (G : forall lines st, Forall section_ok (fst (fst st)) ->
            Forall section_ok
              (fst (fst (fold_left GuideProcessor.section_step lines st)))).
  { induction lines as [| l ls IH]; intros st H; [exact H |].
    apply IH. apply section_step_ok. exact H. }
  specialize (G (GuideProcessor.split_lines t) ([], [], []) (Forall_nil _)).
  destruct (fold_left GuideProcessor.section_step (GuideProcessor.split_lines t) ([], [], []))
    as [[secs cur] content0]. cbn [fst] in G.
  intro H. assert (F : Forall section_ok
                    (if Chunking.nonempty cur
                     then secs ++ [(cur, strip (GuideProcessor.join_lines content0))] else secs)).
  { destruct (Chunking.nonempty cur) eqn:E; [| exact G].
    apply Forall_app. split; [exact G |]. constructor; [| constructor].
    split; [exact E | apply StripFacts.strip_idem]. }
  rewrite Forall_forall in F. exact (F _ H).
Qed.

End GuideTextFacts.

(** X1: every example [extract_examples] returns is stripped: it has no
    leading or trailing whitespace. *)
Theorem extract_examples_stripped (t e : text) :
  In e (GuideProcessor.extract_examples t) -> strip e = e.
Proof.
  unfold GuideProcessor.extract_examples. intro H. apply in_flat_map in H as [src [_ H]].
  apply in_map_iff in H as [mo [<- _]]. apply StripFacts.strip_idem.
Qed.

Lemma extract_examples_stripped_witness :
  let t := u "Dose units. Example: 10 mg daily" in
  In (u "10 mg daily") (GuideProcessor.extract_examples t) /\ strip (u "10 mg daily") = u "10 mg daily".
Proof.
  intro t. split; [vm_compute; tauto |].
  apply (extract_examples_stripped t). vm_compute. tauto.
Defined.

(** X2: every section [extract_sections] returns has a non-empty title and
    a stripped content. *)
Theorem extract_sections_titled_and_stripped (t title content : text) :
  In (title, content) (GuideProcessor.extract_sections t) ->
  Chunking.nonempty title = true /\ strip content = content.
Proof. apply GuideTextFacts.extract_sections_ok. Qed.

Lemma extract_sections_titled_and_stripped_witness :
  let t := u "# Dosing" ++ [10] ++ u "  Give 10 mg.  " in
  In (u "Dosing", u "Give 10 mg.") (GuideProcessor.extract_sections t)
  /\ Chunking.nonempty (u "Dosing") = true /\ strip (u "Give 10 mg.") = u "Give 10 mg.".
Proof.
  intro t. split; [vm_compute; tauto |].
  apply (extract_sections_titled_and_stripped t). vm_compute. tauto.
Defined.

Module CategorizeFacts.
Import Extractor Categorize.

Definition in_cat (c : RuleCategory) (r : Rule) : bool :=
  if category_eq_dec (r_category r) c then true else false.

Lemma perm_filter_split {A : Type} (p : A -> bool) (l : list A) :
  Permutation l (filter p l ++ filter (fun x => negb (p x)) l).
Proof.
  induction l as [| x l IH]; [reflexivity |]. simpl.
  destruct (p x); simpl; [constructor; exact IH |].
  apply Permutation_cons_app. exact IH.
Qed.

Lemma filter_other (c c' : RuleCategory) (l : list Rule) : c' <> c ->
  filter (in_cat c') l = filter (in_cat c') (filter (fun r => negb (in_cat c r)) l).
Proof.
  intro Hne. induction l as [| r l IH]; [reflexivity |]. cbn [filter].
  destruct (in_cat c r) eqn:Ec; destruct (in_cat c' r) eqn:Ec'; cbn [negb filter];
    rewrite ?Ec'; try (f_equal; exact IH); try exact IH.
  unfold in_cat in Ec, Ec'.
  destruct (category_eq_dec (r_category r) c); [| discriminate].
  destruct (category_eq_dec (r_category r) c'); [congruence | discriminate].
Qed.

Lemma flat_map_ext_in' {A B : Type} (f g : A -> list B) (l : list A) :
  (forall a, In a l -> f a = g a) -> flat_map f l = flat_map g l.
Proof.
  induction l as [| a l IH]; intro H; [reflexivity |]. simpl.
  rewrite (H a (or_introl eq_refl)), IH; [reflexivity |]. intros b Hb. apply H. right. exact Hb.
Qed.

Lemma flat_map_filters (cats : list RuleCategory) (l : list Rule) :
  NoDup cats -> (forall r, In r l -> In (r_category r) cats) ->
  Permutation (flat_map (fun c => filter (in_cat c) l) cats) l.
Proof.
  revert l. induction cats as [| c cs IH]; intros l Hnd Hcov.
  - destruct l as [| r l]; [reflexivity |]. destruct (Hcov r (or_introl eq_refl)).
  - inversion Hnd as [| ? ? Hnot Hnd']; subst. cbn [flat_map].
    rewrite (flat_map_ext_in' _ (fun c' => filter (in_cat c') (filter (fun r => negb (in_cat c r)) l))).
    + etransitivity; [| symmetry; apply (perm_filter_split (in_cat c) l)].
      apply Permutation_app_head.
      apply IH; [exact Hnd' |]. intros r Hr. apply filter_In in Hr as [Hr Hn].
      destruct (Hcov r Hr) as [E | E]; [| exact E].
      unfold in_cat in Hn. destruct (category_eq_dec (r_category r) c); [discriminate | congruence].
    + intros c' Hc'. apply filter_other. intros ->. contradiction.
Qed.

Lemma all_categories_nodup : NoDup all_categories.
Proof. unfold all_categories. repeat constructor; simpl; intuition discriminate. Qed.

Lemma all_categories_complete (c : RuleCategory) : In c all_categories.
Proof. destruct c; simpl; tauto. Qed.

End CategorizeFacts.

(** X3: [categorize_rules] has one bucket per category, in the enum order;
    the bucket of [c] holds the rules of category [c] in their input order,
    and the buckets together are a permutation of the input. *)
Theorem categorize_rules_partition (rules : list Extractor.Rule) :
  map fst (Categorize.categorize_rules rules) = Categorize.all_categories /\
  (forall c b, In (c, b) (Categorize.categorize_rules rules) ->
     b = filter (fun r => if Categorize.category_eq_dec (Extractor.r_category r) c then true else false) rules) /\
  Permutation (flat_map snd (Categorize.categorize_rules rules)) rules.
Proof.
  unfold Categorize.categorize_rules. split; [| split].
  - rewrite map_map. apply map_id.
  - intros c b H. apply in_map_iff in H as [c' [H _]]. injection H as -> <-. reflexivity.
  - rewrite flat_map_concat_map, map_map. cbn [snd]. rewrite <- flat_map_concat_map.
    apply (CategorizeFacts.flat_map_filters Categorize.all_categories rules
             CategorizeFacts.all_categories_nodup).
    intros r _. apply CategorizeFacts.all_categories_complete.
Qed.

Module ExtractFacts.
Import Extractor.

Lemma filter_some_mem {A : Type} (l : list (option A)) (x : A) : In x (filter_some l) -> In (Some x) l.
Proof.
  induction l as [| [y |] l IH]; simpl; [tauto | | tauto].
  intros [<- | H]; [left; reflexivity | right; exact (IH H)].
Qed.

Lemma build_rule_shape (p : Regex.pattern) (st : text) (mo : Regex.mobj) (r : Rule) :
  build_rule p st mo = Some r ->
  strip (r_pattern r) = r_pattern r /\ strip (r_replacement r) = r_replacement r /\
  r_description r = st /\ r_examples r = [] /\ r_category r = determine_rule_category st.
Proof.
  unfold build_rule. destruct (Regex.group_named p mo (u "pattern")); [| discriminate].
  destruct (Regex.group_named p mo (u "replacement")); [| discriminate].
  intro H. injection H as <-. cbn.
  split; [apply StripFacts.strip_idem | split; [apply StripFacts.strip_idem | tauto]].
Qed.

End ExtractFacts.

(** X4: every rule [extract_rules] returns comes from a non-blank stripped
    sentence of the text, which is its description and fixes its category;
    its pattern and replacement are stripped and it has no examples. *)
Theorem extract_rules_shape (sents : text -> list text) (t : text) (r : Extractor.Rule) :
  In r (Extractor.extract_rules sents t) ->
  (exists s, In s (sents t) /\ Extractor.r_description r = strip s) /\
  Chunking.nonempty (Extractor.r_description r) = true /\
  Extractor.r_category r = Extractor.determine_rule_category (Extractor.r_description r) /\
  strip (Extractor.r_pattern r) = Extractor.r_pattern r /\
  strip (Extractor.r_replacement r) = Extractor.r_replacement r /\
  Extractor.r_examples r = [].
Proof.
  unfold Extractor.extract_rules. intro H. apply in_flat_map in H as [s [Hs H]].
  destruct (Chunking.nonempty (strip s)) eqn:E; [| destruct H].
  unfold Extractor.rules_of_segment in H. apply in_flat_map in H as [src [_ H]].
  apply ExtractFacts.filter_some_mem, in_map_iff in H as [mo [H _]].
  destruct (ExtractFacts.build_rule_shape _ _ _ _ H) as [Hp [Hr [Hd [He Hc]]]].
  rewrite Hd. split; [exists s; tauto | tauto].
Qed.

Lemma extract_rules_shape_witness :
  let sents := fun t : text => [t] in
  let t := u " a -> b " in
  exists r, In r (Extractor.extract_rules sents t) /\
  ((exists s, In s (sents t) /\ Extractor.r_description r = strip s) /\
   Chunking.nonempty (Extractor.r_description r) = true /\
   Extractor.r_category r = Extractor.determine_rule_category (Extractor.r_description r) /\
   strip (Extractor.r_pattern r) = Extractor.r_pattern r /\
   strip (Extractor.r_replacement r) = Extractor.r_replacement r /\
   Extractor.r_examples r = []).
Proof.
  intros sents t.
  destruct (Extractor.extract_rules sents t) as [| r rs] eqn:E; [vm_compute in E; discriminate E |].
  exists r. assert (Hr : In r (Extractor.extract_rules sents t)) by (rewrite E; left; reflexivity).
  split; [left; reflexivity | exact (extract_rules_shape sents t r Hr)].
Defined.

Module ApiFacts.
Import Api.

Lemma ends_with_spec (t s : text) : ends_with t s = true <-> exists p, t = p ++ s.
Proof.
  induction t as [| c t IH]; cbn [ends_with].
  - rewrite RuleTypeFacts.text_eqb_eq. split.
    + intros ->. exists []. reflexivity.
    + intros [p Hp]. destruct p; [exact (eq_sym Hp) | discriminate].
  - rewrite orb_true_iff, RuleTypeFacts.text_eqb_eq, IH. split.
    + intros [<- | [p ->]]; [exists []; reflexivity | exists (c :: p); reflexivity].
    + intros [[| d p] Hp]; [left; exact Hp |].
      injection Hp as -> Hp. right. exists p. exact Hp.
Qed.

Lemma upload_csr_not_precursor (encode : text -> Faiss.vec) (extract : text -> text)
      (s : session) (fn ct path : text) :
  style_guide_processed s = true ->
  upload_csr encode extract s fn ct path
    <> inl {| status_code := 400; detail := u "Please upload a style guide first" |}.
Proof.
  intro Hs. unfold upload_csr. rewrite Hs. cbn [negb].
  destruct (validate_docx fn ct) as [e |] eqn:V.
  - intro H. injection H as He. subst e. revert V. unfold validate_docx.
    destruct (negb (ends_with (lower fn) (u ".docx"))); [| destruct (negb (text_eqb ct docx_type))];
      intro V; discriminate V.
  - destruct (AppProcessor.process_csr encode extract (doc_processor s) path); intro H; discriminate H.
Qed.

End ApiFacts.

Module CategorizeFacts2.
Lemma categorize_perm (rules : list Extractor.Rule) :
  Permutation (flat_map snd (Categorize.categorize_rules rules)) rules.
Proof.
  unfold Categorize.categorize_rules.
  rewrite flat_map_concat_map, map_map. cbn [snd]. rewrite <- flat_map_concat_map.
  apply (CategorizeFacts.flat_map_filters Categorize.all_categories rules
           CategorizeFacts.all_categories_nodup).
  intros r _. apply CategorizeFacts.all_categories_complete.
Qed.
End CategorizeFacts2.

(** X5: the upload validators of src/app/main.py accept exactly the
    filenames whose lowercase form ends in [.pdf] (resp. [.docx]) sent with
    the PDF (resp. DOCX) content type; every rejection is an HTTP 400. *)
Theorem validators_accept_exactly (fn ct : text) :
  (ApiStyleGuide.validate_pdf fn ct = None <->
     (exists p, lower fn = p ++ u ".pdf") /\ ct = u "application/pdf") /\
  (Api.validate_docx fn ct = None <->
     (exists p, lower fn = p ++ u ".docx") /\ ct = Api.docx_type) /\
  (forall e, ApiStyleGuide.validate_pdf fn ct = Some e \/ Api.validate_docx fn ct = Some e ->
     Api.status_code e = 400).
Proof.
  unfold ApiStyleGuide.validate_pdf, Api.validate_docx. split; [| split].
  - rewrite <- ApiFacts.ends_with_spec, <- RuleTypeFacts.text_eqb_eq.
    destruct (Api.ends_with (lower fn) (u ".pdf")), (text_eqb ct (u "application/pdf"));
      cbn [negb]; split; intro H; try discriminate H; try (destruct H; discriminate);
      split; reflexivity.
  - rewrite <- ApiFacts.ends_with_spec, <- RuleTypeFacts.text_eqb_eq.
    destruct (Api.ends_with (lower fn) (u ".docx")), (text_eqb ct Api.docx_type);
      cbn [negb]; split; intro H; try discriminate H; try (destruct H; discriminate);
      split; reflexivity.
  - intros e [H | H];
      [destruct (Api.ends_with (lower fn) (u ".pdf")), (text_eqb ct (u "application/pdf"))
      | destruct (Api.ends_with (lower fn) (u ".docx")), (text_eqb ct Api.docx_type)];
      cbn [negb] in H; try discriminate H; injection H as He; subst e; reflexivity.
Qed.

(** X6: a style-guide upload that passes [validate_pdf] is answered with
    HTTP 500 when PyPDF2 cannot read it; when it can, the upload succeeds
    and marks the session processed, so a following [/upload/csr] never
    answers "Please upload a style guide first"; the stored rules are the
    categorized rules flattened, a permutation of the rules extracted from
    the page text (or from [default_rules_text] when that text is shorter
    than 100 characters once stripped), and the index encodes them in
    order unless there are none, in which case the old index is kept. *)
Theorem upload_style_guide_then_csr (encode : text -> Faiss.vec) (sents : text -> list text)
      (s : Api.session) (fn ct : text) (pages : list text) :
  ApiStyleGuide.validate_pdf fn ct = None ->
  (forall msg, exists e, ApiStyleGuide.upload_style_guide encode sents s fn ct (inl msg) = inl e
                         /\ Api.status_code e = 500) /\
  exists s' cat,
    ApiStyleGuide.upload_style_guide encode sents s fn ct (inr pages) = inr (s', cat) /\
    Api.style_guide_processed s' = true /\
    AppProcessor.style_rules (Api.doc_processor s') = flat_map snd cat /\
    (exists t, (t = List.concat (skipn 5 pages) \/ t = ApiStyleGuide.default_rules_text) /\
               Permutation (flat_map snd cat) (Extractor.extract_rules sents t)) /\
    (flat_map snd cat <> [] ->
       AppProcessor.index (Api.doc_processor s')
       = Some (map (fun r => encode (AppProcessor.rule_text r)) (flat_map snd cat))) /\
    (flat_map snd cat = [] ->
       AppProcessor.index (Api.doc_processor s') = AppProcessor.index (Api.doc_processor s)) /\
    (forall extract fn' ct' path,
       Api.upload_csr encode extract s' fn' ct' path
       <> inl {| Api.status_code := 400; Api.detail := u "Please upload a style guide first" |}).
Proof.
  intro V. unfold ApiStyleGuide.upload_style_guide. rewrite V.
  split; [intro msg; eexists; split; reflexivity |].
  set (t := if (List.length (strip (List.concat (skipn 5 pages))) <? 100)%nat
            then ApiStyleGuide.default_rules_text else List.concat (skipn 5 pages)).
  set (cat := Categorize.categorize_rules (Extractor.extract_rules sents t)).
  eexists _, cat. split; [reflexivity |]. cbn [Api.style_guide_processed Api.doc_processor].
  split; [reflexivity |].
  split; [unfold AppProcessor.process_style_guide; cbv zeta;
          destruct (map AppProcessor.rule_text (flat_map snd cat)); reflexivity |].
  split.
  { exists t. split; [unfold t; destruct (_ <? _)%nat; tauto |]. apply CategorizeFacts2.categorize_perm. }
  split.
  { intro H. pose proof (IngestionFacts.process_style_guide_lockstep encode (Api.doc_processor s) cat H) as L.
    cbv zeta in L. rewrite L. f_equal. f_equal. unfold AppProcessor.process_style_guide. cbv zeta.
    destruct (map AppProcessor.rule_text (flat_map snd cat)); reflexivity. }
  split.
  { intro H. unfold AppProcessor.process_style_guide. cbv zeta. rewrite H. reflexivity. }
  intros extract fn' ct' path. apply ApiFacts.upload_csr_not_precursor. reflexivity.
Qed.

Lemma upload_style_guide_then_csr_witness :
  let s := {| Api.style_guide_processed := false; Api.doc_processor := AppProcessor.init |} in
  ApiStyleGuide.validate_pdf (u "Guide.PDF") (u "application/pdf") = None /\
  exists s' cat,
    ApiStyleGuide.upload_style_guide (fun _ => []) (fun t => [t]) s (u "Guide.PDF")
      (u "application/pdf") (inr []) = inr (s', cat) /\
    Api.style_guide_processed s' = true /\
    AppProcessor.style_rules (Api.doc_processor s') = flat_map snd cat /\
    (exists t, (t = List.concat (skipn 5 []) \/ t = ApiStyleGuide.default_rules_text) /\
               Permutation (flat_map snd cat) (Extractor.extract_rules (fun t => [t]) t)) /\
    (flat_map snd cat <> [] ->
       AppProcessor.index (Api.doc_processor s')
       = Some (map (fun r => (fun _ => []) (AppProcessor.rule_text r)) (flat_map snd cat))) /\
    (flat_map snd cat = [] ->
       AppProcessor.index (Api.doc_processor s') = AppProcessor.index (Api.doc_processor s)) /\
    (forall extract fn' ct' path,
       Api.upload_csr (fun _ => []) extract s' fn' ct' path
       <> inl {| Api.status_code := 400; Api.detail := u "Please upload a style guide first" |}).
Proof.
  intro s. split; [vm_compute; reflexivity |].
  refine (proj2 (upload_style_guide_then_csr (fun _ => []) (fun t => [t]) s (u "Guide.PDF")
                  (u "application/pdf") [] _)).
  vm_compute. reflexivity.
Defined.

Module DocxFacts.
Import GuideProcessor.

Lemma split_lines_aux_app (x t cur : text) :
  ~ In 10 x -> split_lines_aux (x ++ t) cur = split_lines_aux t (rev x ++ cur).
Proof.
  revert cur. induction x as [| c x IH]; intros cur H; [reflexivity |].
  cbn [app split_lines_aux]. destruct (c =? 10) eqn:E.
  - apply Z.eqb_eq in E. subst c. destruct H. left. reflexivity.
  - rewrite IH; [| intro H'; apply H; right; exact H'].
    cbn [rev]. rewrite <- app_assoc. reflexivity.
Qed.

Lemma split_join (l : list text) :
  Forall (fun x => ~ In 10 x) l -> l <> [] -> split_lines (join_lines l) = l.
Proof.
  induction l as [| x l IH]; intros H Hne; [contradiction |].
  inversion H as [| ? ? Hx Hl]; subst. unfold split_lines.
  destruct l as [| y l].
  - cbn [join_lines]. rewrite <- (app_nil_r x) at 1. rewrite split_lines_aux_app by exact Hx.
    cbn. rewrite app_nil_r, rev_involutive. reflexivity.
  - change (join_lines (x :: y :: l)) with (x ++ [10] ++ join_lines (y :: l)).
    rewrite split_lines_aux_app by exact Hx. cbn [app split_lines_aux Z.eqb Pos.eqb].
    rewrite app_nil_r, rev_involutive. f_equal. apply IH; [exact Hl | discriminate].
Qed.

End DocxFacts.

(** X7: [extract_text_from_docx] keeps the non-blank paragraph texts,
    then the non-blank cell texts table by table and row by row; splitting
    its result at newlines gives them back when none contains a newline,
    and a document with no non-blank text gives the empty string. *)
Theorem extract_text_from_docx_lines (d : DocxText.docx) :
  let items := filter (fun t => Chunking.nonempty (strip t))
                      (DocxText.paragraphs d ++ List.concat (List.concat (DocxText.tables d))) in
  (items = [] -> DocxText.extract_text_from_docx d = []) /\
  (Forall (fun x => ~ In 10 x) items -> items <> [] ->
     GuideProcessor.split_lines (DocxText.extract_text_from_docx d) = items).
Proof.
  intro items. unfold DocxText.extract_text_from_docx. fold items. split.
  - intros ->. reflexivity.
  - apply DocxFacts.split_join.
Qed.

Lemma extract_text_from_docx_lines_witness :
  let d := {| DocxText.paragraphs := [u "Title"; u "   "; u "Body text."];
              DocxText.tables := [[[u "a"; u ""]; [u "b"]]] |} in
  GuideProcessor.split_lines (DocxText.extract_text_from_docx d)
  = [u "Title"; u "Body text."; u "a"; u "b"].
Proof.
  intro d. apply (proj2 (extract_text_from_docx_lines d)).
  - vm_compute. repeat constructor; intro H; repeat (destruct H as [H | H]; [discriminate H |]); exact H.
  - vm_compute. discriminate.
Defined.

Module CleanFacts.
Import FlaskApp.

Lemma replace_go_pass (o : char) (os new x y : text) :
  ~ In o x -> replace_go (o :: os) new O (x ++ y) = x ++ replace_go (o :: os) new O y.
Proof.
  induction x as [| c x IH]; intro H; [reflexivity |].
  cbn [app replace_go prefixb].
  destruct (o =? c) eqn:E; [apply Z.eqb_eq in E; subst; destruct H; left; reflexivity |].
  cbn [andb]. rewrite IH; [reflexivity | intro H'; apply H; right; exact H'].
Qed.

Lemma replace_go_none (o : char) (os new t : text) :
  ~ In o t -> replace_go (o :: os) new O t = t.
Proof.
  intro H. rewrite <- (app_nil_r t) at 1. rewrite replace_go_pass by exact H.
  rewrite app_nil_r. reflexivity.
Qed.

Lemma replace_go_skip (old new x y : text) :
  replace_go old new (List.length x) (x ++ y) = replace_go old new O y.
Proof. induction x as [| c x IH]; [reflexivity | exact IH]. Qed.

Lemma prefixb_app (a y : text) : prefixb a (a ++ y) = true.
Proof. induction a as [| c a IH]; [reflexivity |]. cbn. rewrite Z.eqb_refl. exact IH. Qed.

Lemma replace_go_match (o : char) (os new y : text) :
  replace_go (o :: os) new O ((o :: os) ++ y) = new ++ replace_go (o :: os) new O y.
Proof.
  assert (P := prefixb_app (o :: os) y). cbn [app] in P |- *. cbn [replace_go].
  rewrite P. cbn [Nat.pred List.length]. rewrite replace_go_skip. reflexivity.
Qed.

Lemma replace_go_step (old new : text) (c : char) (t : text) :
  prefixb old (c :: t) = false -> replace_go old new O (c :: t) = c :: replace_go old new O t.
Proof. intro H. cbn [replace_go]. rewrite H. reflexivity. Qed.

Lemma replace_first_pass (o : char) (os new x y : text) :
  ~ In o x -> replace_first (o :: os) new (x ++ y) = x ++ replace_first (o :: os) new y.
Proof.
  induction x as [| c x IH]; intro H; [reflexivity |].
  cbn [app replace_first prefixb].
  destruct (o =? c) eqn:E; [apply Z.eqb_eq in E; subst; destruct H; left; reflexivity |].
  cbn [andb]. rewrite IH; [reflexivity | intro H'; apply H; right; exact H'].
Qed.

Lemma replace_first_match (o : char) (os new y : text) :
  replace_first (o :: os) new ((o :: os) ++ y) = new ++ y.
Proof.
  assert (P := prefixb_app (o :: os) y). cbn [app] in P |- *. cbn [replace_first].
  rewrite P. change (o :: os ++ y) with ((o :: os) ++ y).
  rewrite skipn_app, skipn_all, Nat.sub_diag. reflexivity.
Qed.

Lemma not_in_of_existsb (c : char) (t : text) : existsb (Z.eqb c) t = false -> ~ In c t.
Proof.
  intros H Hin. assert (E : existsb (Z.eqb c) t = true)
    by (apply existsb_exists; exists c; split; [exact Hin | apply Z.eqb_refl]).
  congruence.
Qed.

Lemma not_in_app (c : char) (a b : text) : ~ In c a -> ~ In c b -> ~ In c (a ++ b).
Proof. intros Ha Hb H. apply in_app_or in H as [H | H]; contradiction. Qed.

End CleanFacts.

Module CleanFacts2.
Lemma clean_text_marker (pre conf r post : text) :
  ~ In 60 pre -> ~ In 60 conf -> ~ In 60 r -> ~ In 60 post ->
  ~ In 62 pre -> ~ In 62 conf ->
  FlaskApp.clean_text (pre ++ FlaskApp.marker conf r ++ post) = pre ++ conf ++ r ++ post.
Proof.
  intros H1 H2 H3 H4 H5 H6. unfold FlaskApp.clean_text, FlaskApp.str_replace, FlaskApp.marker.
  assert (N62 : ~ In 60 (u ">")) by (apply CleanFacts.not_in_of_existsb; reflexivity).
  assert (Nc : ~ In 60 (u "/change>")) by (apply CleanFacts.not_in_of_existsb; reflexivity).
  assert (Hst : prefixb (u "<change confidence=") (60 :: u "/change>" ++ post) = false) by reflexivity.
  change (u "</change>" ++ post) with (60 :: u "/change>" ++ post).
  change (u "</change>") with (60 :: u "/change>").
  change (u ">") with [62] at 1.
  set (o1 := tl (u "<change confidence=")) in *.
  assert (Ho1 : u "<change confidence=" = 60 :: o1) by reflexivity.
  rewrite Ho1 in Hst |- *. clearbody o1. clear Ho1.
  set (o2 := u "/change>") in *. clearbody o2.
  (* the opening tag *)
  rewrite (CleanFacts.replace_go_pass _ _ _ pre) by exact H1.
  rewrite <- !app_assoc. cbn [app].
  change (60 :: o1 ++ conf ++ u ">" ++ r ++ 60 :: o2 ++ post)
    with ((60 :: o1) ++ (conf ++ u ">" ++ r ++ 60 :: o2 ++ post)).
  rewrite CleanFacts.replace_go_match, app_nil_l.
  rewrite (CleanFacts.replace_go_pass _ _ _ conf) by exact H2.
  rewrite (CleanFacts.replace_go_pass _ _ _ (u ">")) by exact N62.
  rewrite (CleanFacts.replace_go_pass _ _ _ r) by exact H3.
  rewrite CleanFacts.replace_go_step by exact Hst.
  rewrite (CleanFacts.replace_go_pass _ _ _ o2) by exact Nc.
rewrite (CleanFacts.replace_go_none _ _ _ post) by exact H4.
  (* the closing tag *)
  rewrite (CleanFacts.replace_go_pass _ _ _ pre) by exact H1.
  rewrite (CleanFacts.replace_go_pass _ _ _ conf) by exact H2.
  rewrite (CleanFacts.replace_go_pass _ _ _ (u ">")) by exact N62.
  rewrite (CleanFacts.replace_go_pass _ _ _ r) by exact H3.
  change (60 :: o2 ++ post) with ((60 :: o2) ++ post).
  rewrite CleanFacts.replace_go_match, app_nil_l.
rewrite (CleanFacts.replace_go_none _ _ _ post) by exact H4.
  (* the first [>] *)
  rewrite (CleanFacts.replace_first_pass _ _ _ pre) by exact H5.
  rewrite (CleanFacts.replace_first_pass _ _ _ conf) by exact H6.
  change (u ">" ++ r ++ post) with ((62 :: []) ++ (r ++ post)).
  rewrite CleanFacts.replace_first_match. reflexivity.
Qed.
End CleanFacts2.

(** X8: in the corrected document of src/app.py ([create_corrected_doc]),
    a record whose corrected text carries one change marker with confidence
    [conf] and replacement [r] gives a paragraph where both tags are
    removed but the confidence text stays, glued before the replacement:
    [pre ++ conf ++ r ++ post], when [pre], [conf], [r] and [post] contain
    no [<] and [pre] and [conf] contain no [>]. *)
Theorem create_corrected_doc_keeps_confidence (results : list GuideCorrection.applied)
      (a : GuideCorrection.applied) (pre conf r post : text) :
  In a results ->
  GuideCorrection.ap_corrected_text a = pre ++ FlaskApp.marker conf r ++ post ->
  ~ In 60 pre -> ~ In 60 conf -> ~ In 60 r -> ~ In 60 post ->
  ~ In 62 pre -> ~ In 62 conf ->
  In (FlaskApp.Para (pre ++ conf ++ r ++ post)) (FlaskApp.create_corrected_doc results).
Proof.
  intros Ha Hc H1 H2 H3 H4 H5 H6. unfold FlaskApp.create_corrected_doc. right.
  apply in_map_iff. exists a. split; [| exact Ha].
  assert (Hn : Chunking.nonempty (GuideCorrection.ap_corrected_text a) = true).
  { rewrite Hc. destruct pre; reflexivity. }
  rewrite Hn, Hc, CleanFacts2.clean_text_marker; auto.
Qed.

Lemma create_corrected_doc_keeps_confidence_witness :
  let a := {| GuideCorrection.ap_original_text := u "The patient was seen.";
              GuideCorrection.ap_corrected_text :=
                u "The " ++ FlaskApp.marker (u "0.85") (u "subject") ++ u " was seen.";
              GuideCorrection.ap_applied_rules := [] |} in
  In (FlaskApp.Para (u "The 0.85subject was seen.")) (FlaskApp.create_corrected_doc [a]).
Proof.
  intro a.
  apply (create_corrected_doc_keeps_confidence [a] a (u "The ") (u "0.85") (u "subject") (u " was seen."));
    [left; reflexivity | reflexivity | ..];
    vm_compute; intro H; repeat (destruct H as [H | H]; [discriminate H |]); exact H.
Defined.

Module CsrFacts.
Import GuideCorrection.

Lemma subseq_length {A : Type} (l1 l2 : list A) : Seq.subseq l1 l2 -> (List.length l1 <= List.length l2)%nat.
Proof. induction 1; cbn; lia. Qed.

Lemma paragraphs_spec (show_conf : Q -> text)
      (sort_desc : list (nat * matched_rule) -> option (list (nat * matched_rule)))
      (encode : text -> Faiss.vec) (st : GuideProcessor.state) (ps doc : list text) (ap : list applied) :
  process_paragraphs show_conf sort_desc encode st ps = inr (doc, ap) ->
  doc = filter (fun p => Chunking.nonempty (strip p)) ps /\
  Seq.subseq (map ap_original_text ap) doc /\
  (forall a, In a ap -> ap_corrected_text a <> ap_original_text a /\
     forall m, In m (ap_applied_rules a) -> differs_from_paragraph (ap_original_text a) m = true).
Proof.
  revert doc ap. induction ps as [| p ps IH]; intros doc ap H.
  - injection H as <- <-. split; [reflexivity | split; [constructor | intros a []]].
  - cbn [process_paragraphs] in H. cbn [filter].
    destruct (Chunking.nonempty (strip p)) eqn:Ep; cbn [negb] in H; [| exact (IH _ _ H)].
    destruct (paragraph_matches encode st p) as [matched |]; [| discriminate H].
    set (this := match matched with
                 | [] => inr []
                 | _ :: _ => match apply_style_rules show_conf sort_desc p matched with
                             | Some ct => if text_eqb ct p then inr []
                                          else inr [{| ap_original_text := p; ap_corrected_text := ct;
                                                       ap_applied_rules := filter (differs_from_paragraph p) matched |}]
                             | None => inl SortTypeError
                             end
                 end) in H.
    assert (Hthis : forall a, this = inr a -> a = [] \/
              exists ct, ct <> p /\ a = [{| ap_original_text := p; ap_corrected_text := ct;
                                            ap_applied_rules := filter (differs_from_paragraph p) matched |}]).
    { intros a Ha. unfold this in Ha. destruct matched as [| m ms].
      - injection Ha as <-. left. reflexivity.
      - destruct (apply_style_rules show_conf sort_desc p (m :: ms)) as [ct |]; [| discriminate Ha].
        destruct (text_eqb ct p) eqn:Et; injection Ha as <-; [left; reflexivity |].
        right. exists ct. split; [| reflexivity]. intro E. subst ct.
        rewrite ApplyRulesFacts.text_eqb_refl in Et. discriminate Et. }
    destruct this as [e | a]; [discriminate H |].
    destruct (process_paragraphs show_conf sort_desc encode st ps) as [e | [doc' rest]] eqn:Er;
      [discriminate H |].
    injection H as <- <-. destruct (IH doc' rest eq_refl) as [Hd [Hs Ha]].
    split; [rewrite Hd; reflexivity |].
    destruct (Hthis a eq_refl) as [-> | [ct [Hct ->]]].
    + split; [apply Seq.subseq_skip; exact Hs | exact Ha].
    + split; [apply Seq.subseq_take; exact Hs |].
      intros b [<- | Hb]; [| exact (Ha b Hb)]. cbn. split; [exact Hct |].
      intros m Hm. apply filter_In in Hm. exact (proj2 Hm).
Qed.

End CsrFacts.

(** X9: a successful [process_csr_document] returns, as its processed
    document, exactly the non-blank paragraphs of the input, unchanged and
    in order; the applied-rule records follow the order of their
    paragraphs (at most one per paragraph), each one's corrected text
    differs from its original paragraph, and each listed rule has an
    example that differs from the paragraph (ignoring case and surrounding
    whitespace). *)
Theorem process_csr_document_result (show_conf : Q -> text)
      (sort_desc : list (nat * GuideCorrection.matched_rule) -> option (list (nat * GuideCorrection.matched_rule)))
      (encode : text -> Faiss.vec) (st : GuideProcessor.state) (ps doc : list text)
      (ap : list GuideCorrection.applied) :
  GuideCorrection.process_csr_document show_conf sort_desc encode st ps = inr (doc, ap) ->
  doc = filter (fun p => Chunking.nonempty (strip p)) ps /\
  Seq.subseq (map GuideCorrection.ap_original_text ap) doc /\
  (forall a, In a ap ->
     GuideCorrection.ap_corrected_text a <> GuideCorrection.ap_original_text a /\
     forall m, In m (GuideCorrection.ap_applied_rules a) ->
       GuideCorrection.differs_from_paragraph (GuideCorrection.ap_original_text a) m = true).
Proof.
  unfold GuideCorrection.process_csr_document. destruct (GuideProcessor.chunks st); [discriminate |].
  apply CsrFacts.paragraphs_spec.
Qed.

Lemma process_csr_document_result_witness :
  let chunk := {| GuideProcessor.sc_content := u "patient"; GuideProcessor.sc_rule_type := u "terminology";
                  GuideProcessor.sc_section := u "Terms"; GuideProcessor.sc_examples := [u "Subject"];
                  GuideProcessor.sc_embedding := [0%Q] |} in
  let st := {| GuideProcessor.index := [[0%Q]]; GuideProcessor.chunks := [chunk] |} in
  let rule := {| GuideCorrection.mr_rule := u "patient"; GuideCorrection.mr_type := u "terminology";
                 GuideCorrection.mr_section := u "Terms"; GuideCorrection.mr_examples := [u "Subject"];
                 GuideCorrection.mr_confidence := (1 - 0 / 2)%Q |} in
  let ap := [{| GuideCorrection.ap_original_text := u "The patient was enrolled.";
                GuideCorrection.ap_corrected_text := u "The <change confidence=1.0>Subject</change> was enrolled.";
                GuideCorrection.ap_applied_rules := [rule] |}] in
  let doc := [u "The patient was enrolled."] in
  let ps := [u "The patient was enrolled."; u "   "] in
  doc = filter (fun p => Chunking.nonempty (strip p)) ps /\
  Seq.subseq (map GuideCorrection.ap_original_text ap) doc /\
  (forall a, In a ap ->
     GuideCorrection.ap_corrected_text a <> GuideCorrection.ap_original_text a /\
     forall m, In m (GuideCorrection.ap_applied_rules a) ->
       GuideCorrection.differs_from_paragraph (GuideCorrection.ap_original_text a) m = true).
Proof.
  intros chunk st rule ap doc ps.
  apply (process_csr_document_result (fun _ => u "1.0") GuideCorrection.py_sort_desc (fun _ => [0%Q])
           st ps doc ap).
  vm_compute. reflexivity.
Defined.

(** X10: the [/api/process-csr] endpoint of src/app.py answers a valid
    upload with HTTP 500 and the "No style guide has been processed yet"
    message while no style-guide chunk is stored; a 200 answer reports as
    [total_paragraphs] the number of non-blank paragraphs of the upload,
    and as [total_rules_applied] the number of records, which is at most
    that. *)
Theorem flask_process_csr_outcomes (show_conf : Q -> text) (encode : text -> Faiss.vec)
      (st : GuideProcessor.state) (fn : text) (ps : list text) :
  (GuideProcessor.chunks st = [] -> Chunking.nonempty fn = true -> Api.ends_with fn (u ".docx") = true ->
     FlaskApp.flask_process_csr encode show_conf st (Some (fn, ps))
     = (500, FlaskApp.FError (Some GuideCorrection.no_guide_msg))) /\
  (forall ap tp tr,
     FlaskApp.flask_process_csr encode show_conf st (Some (fn, ps)) = (200, FlaskApp.FCsr ap tp tr) ->
     tp = List.length (filter (fun p => Chunking.nonempty (strip p)) ps) /\
     tr = List.length ap /\ (tr <= tp)%nat).
Proof.
  unfold FlaskApp.flask_process_csr. split.
  - intros Hc Hn He. rewrite Hn, He. cbn [negb].
    unfold GuideCorrection.process_csr_document. rewrite Hc. reflexivity.
  - intros ap tp tr.
    destruct (negb (Chunking.nonempty fn)); [discriminate |].
    destruct (negb (Api.ends_with fn (u ".docx"))); [discriminate |].
    destruct (GuideCorrection.process_csr_document show_conf GuideCorrection.py_sort_desc encode st ps)
      as [e | [doc ap']] eqn:E; [discriminate |].
    intro H. injection H as <- <- <-.
    unfold GuideCorrection.process_csr_document in E.
    destruct (GuideProcessor.chunks st); [discriminate E |].
    destruct (CsrFacts.paragraphs_spec _ _ _ _ _ _ _ E) as [Hd [Hs _]].
    split; [rewrite Hd; reflexivity | split; [reflexivity |]].
    rewrite <- (length_map GuideCorrection.ap_original_text ap'). apply CsrFacts.subseq_length. exact Hs.
Qed.

Lemma flask_process_csr_outcomes_witness :
  let chunk := {| GuideProcessor.sc_content := u "patient"; GuideProcessor.sc_rule_type := u "terminology";
                  GuideProcessor.sc_section := u "Terms"; GuideProcessor.sc_examples := [u "Subject"];
                  GuideProcessor.sc_embedding := [0%Q] |} in
  let st := {| GuideProcessor.index := [[0%Q]]; GuideProcessor.chunks := [chunk] |} in
  FlaskApp.flask_process_csr (fun _ => [0%Q]) (fun _ => u "1.0") GuideProcessor.init
    (Some (u "csr.docx", [u "The patient was enrolled."]))
  = (500, FlaskApp.FError (Some GuideCorrection.no_guide_msg)) /\
  (forall ap tp tr,
     FlaskApp.flask_process_csr (fun _ => [0%Q]) (fun _ => u "1.0") st
       (Some (u "csr.docx", [u "The patient was enrolled."; u " "])) = (200, FlaskApp.FCsr ap tp tr) ->
     tp = List.length (filter (fun p => Chunking.nonempty (strip p)) [u "The patient was enrolled."; u " "]) /\
     tr = List.length ap /\ (tr <= tp)%nat).
Proof.
  intros chunk st. split.
  - apply (proj1 (flask_process_csr_outcomes (fun _ => u "1.0") (fun _ => [0%Q]) GuideProcessor.init
                    (u "csr.docx") [u "The patient was enrolled."])); vm_compute; reflexivity.
  - exact (proj2 (flask_process_csr_outcomes (fun _ => u "1.0") (fun _ => [0%Q]) st
                    (u "csr.docx") [u "The patient was enrolled."; u " "])).
Defined.

(** X11: the [/api/upload-style-guide] endpoint of src/app.py answers
    HTTP 400 with an error message, or HTTP 500 with the message of the
    exception raised while saving or reading a non-empty [.pdf] upload,
    both leaving the processor state unchanged; or it answers 200 for a
    non-empty filename ending in [.pdf] (case-sensitive) whose pages were
    read, after [preprocess_pdf] on them, reporting the number of chunks
    now stored; the index then holds the old entries followed by the
    embeddings of those chunks. *)
Theorem flask_upload_style_guide_outcomes (encode : text -> Faiss.vec) (split_text : text -> list text)
      (st : GuideProcessor.state) (file : option (text * (text + list (option text))))
      (code : Z) (b : FlaskApp.body) (st' : GuideProcessor.state) :
  FlaskApp.flask_upload_style_guide encode split_text st file = (code, b, st') ->
  (code = 400 /\ st' = st /\ exists m, b = FlaskApp.FError (Some m)) \/
  (code = 500 /\ st' = st /\
   exists fn msg, file = Some (fn, inl msg) /\ Chunking.nonempty fn = true /\
      Api.ends_with fn (u ".pdf") = true /\ b = FlaskApp.FError (Some msg)) \/
  (code = 200 /\
   (exists fn pages, file = Some (fn, inr pages) /\ Chunking.nonempty fn = true /\
      Api.ends_with fn (u ".pdf") = true /\
      st' = GuideProcessor.preprocess_pdf encode split_text st pages) /\
   b = FlaskApp.FChunks (List.length (GuideProcessor.chunks st')) /\
   GuideProcessor.index st' = GuideProcessor.index st ++ map GuideProcessor.sc_embedding (GuideProcessor.chunks st')).
Proof.
  unfold FlaskApp.flask_upload_style_guide. destruct file as [[fn pdf] |].
  - destruct (Chunking.nonempty fn) eqn:En; cbn [negb].
    + destruct (Api.ends_with fn (u ".pdf")) eqn:Ee; cbn [negb].
      * destruct pdf as [msg | pages].
        -- intro H. injection H as <- <- <-. right. left. split; [reflexivity | split; [reflexivity |]].
           exists fn, msg. tauto.
        -- intro H. injection H as <- <- <-. right. right. split; [reflexivity |].
           split; [exists fn, pages; tauto |]. split; [reflexivity |].
           apply IngestionFacts.preprocess_pdf_index.
      * intro H. injection H as <- <- <-. left. split; [reflexivity | split; [reflexivity |]]. eexists. reflexivity.
    + intro H. injection H as <- <- <-. left. split; [reflexivity | split; [reflexivity |]]. eexists. reflexivity.
  - intro H. injection H as <- <- <-. left. split; [reflexivity | split; [reflexivity |]]. eexists. reflexivity.
Qed.

Lemma flask_upload_style_guide_outcomes_witness :
  let file := Some (u "guide.pdf", @inl text (list (option text)) (u "EOF marker not found")) in
  (500 = 400 /\ GuideProcessor.init = GuideProcessor.init /\
   exists m, FlaskApp.FError (Some (u "EOF marker not found")) = FlaskApp.FError (Some m)) \/
  (500 = 500 /\ GuideProcessor.init = GuideProcessor.init /\
   exists fn msg, file = Some (fn, inl msg) /\ Chunking.nonempty fn = true /\
      Api.ends_with fn (u ".pdf") = true /\
      FlaskApp.FError (Some (u "EOF marker not found")) = FlaskApp.FError (Some msg)) \/
  (500 = 200 /\
   (exists fn pages, file = Some (fn, inr pages) /\
      Chunking.nonempty fn = true /\ Api.ends_with fn (u ".pdf") = true /\
      GuideProcessor.init = GuideProcessor.preprocess_pdf (fun _ => []) (fun t => [t]) GuideProcessor.init pages) /\
   FlaskApp.FError (Some (u "EOF marker not found"))
   = FlaskApp.FChunks (List.length (GuideProcessor.chunks GuideProcessor.init)) /\
   GuideProcessor.index GuideProcessor.init
   = GuideProcessor.index GuideProcessor.init
     ++ map GuideProcessor.sc_embedding (GuideProcessor.chunks GuideProcessor.init)).
Proof.
  intro file.
  apply (flask_upload_style_guide_outcomes (fun _ => []) (fun t => [t]) GuideProcessor.init file).
  vm_compute. reflexivity.
Defined.

(** X12: every chunk [preprocess_pdf] stores comes from a section of the
    page text (the pages that have text, each followed by two newlines):
    it is a piece of that section's content as the splitter cut it, at
    least 50 characters long once stripped, with the section's non-empty
    title, its examples and rule type computed from the piece, and its
    embedding the encoding of the piece. *)
Theorem preprocess_pdf_chunks (encode : text -> Faiss.vec) (split_text : text -> list text)
      (st : GuideProcessor.state) (pages : list (option text)) (c : GuideProcessor.StyleChunk) :
  In c (GuideProcessor.chunks (GuideProcessor.preprocess_pdf encode split_text st pages)) ->
  (exists content, In (GuideProcessor.sc_section c, content)
                      (GuideProcessor.extract_sections (GuideProcessor.full_text pages)) /\
                   In (GuideProcessor.sc_content c) (split_text content)) /\
  (50 <= List.length (strip (GuideProcessor.sc_content c)))%nat /\
  Chunking.nonempty (GuideProcessor.sc_section c) = true /\
  GuideProcessor.sc_examples c = GuideProcessor.extract_examples (GuideProcessor.sc_content c) /\
  GuideProcessor.sc_rule_type c
    = GuideProcessor.identify_rule_type (GuideProcessor.sc_content c) (GuideProcessor.sc_section c) /\
  GuideProcessor.sc_embedding c = encode (GuideProcessor.sc_content c).
Proof.
  unfold GuideProcessor.preprocess_pdf. cbn [GuideProcessor.chunks]. intro H.
  apply in_flat_map in H as [[title content] [Hsec H]].
  unfold GuideProcessor.section_chunks in H. apply in_flat_map in H as [chunk [Hch H]].
  destruct (List.length (strip chunk) <? 50)%nat eqn:E; [destruct H |].
  destruct H as [<- | []].
  cbn [GuideProcessor.sc_content GuideProcessor.sc_section GuideProcessor.sc_examples
       GuideProcessor.sc_rule_type GuideProcessor.sc_embedding].
  apply Nat.ltb_ge in E.
  split; [exists content; split; assumption |].
  split; [exact E |]. split; [exact (proj1 (GuideTextFacts.extract_sections_ok _ _ _ Hsec)) |].
  repeat split.
Qed.

Lemma preprocess_pdf_chunks_witness :
  let body := u "Dose units must be written in full, as in the following sentence. Example: 10 mg daily" in
  let pages := [Some (u "# Dosing" ++ [10] ++ body); None] in
  let c := {| GuideProcessor.sc_content := body;
              GuideProcessor.sc_rule_type := GuideProcessor.identify_rule_type body (u "Dosing");
              GuideProcessor.sc_section := u "Dosing";
              GuideProcessor.sc_examples := GuideProcessor.extract_examples body;
              GuideProcessor.sc_embedding := [] |} in
  (50 <= List.length (strip (GuideProcessor.sc_content c)))%nat /\
  GuideProcessor.sc_examples c = [u "10 mg daily"].
Proof.
  intros body pages c.
  destruct (preprocess_pdf_chunks (fun _ => []) (fun t => [t]) GuideProcessor.init pages c)
    as [_ [H1 [_ [H2 _]]]].
  - vm_compute. left. reflexivity.
  - split; [exact H1 | rewrite H2; vm_compute; reflexivity].
Defined.

Module LogFacts.
Import Corrections.

Definition entry_pair (e : log_entry) : text * repl := (le_pattern e, le_replacement e).

Lemma fold_log (l : list (text * repl)) (ct : text) (corrs : list log_entry) (t0 : text) :
  exists s, snd (fst (fold_left first_pass_step l (ct, corrs, t0))) = corrs ++ s /\
            Seq.subseq (map entry_pair s) (filter (fun e => negb (clinical_kw (fst e))) l).
Proof.
  revert ct corrs t0. induction l as [| [src rp] l IH]; intros ct corrs t0.
  - exists []. rewrite app_nil_r. split; [reflexivity | constructor].
  - cbn [fold_left filter fst]. unfold first_pass_step at 2.
    destruct (clinical_kw src); cbn [negb].
    + exact (IH ct corrs t0).
    + set (ct' := if is_callable rp then re_sub false src rp ct else re_sub true src rp ct).
      destruct (negb (text_eqb ct' t0)).
      * destruct (IH ct' (corrs ++ [{| le_pattern := src; le_replacement := rp |}]) ct')
          as [s [Hs Hsub]].
        exists ({| le_pattern := src; le_replacement := rp |} :: s).
        rewrite Hs, <- app_assoc. split; [reflexivity |].
        cbn [map]. apply Seq.subseq_take. exact Hsub.
      * destruct (IH ct' corrs t0) as [s [Hs Hsub]].
        exists s. split; [exact Hs |]. apply Seq.subseq_skip. exact Hsub.
Qed.

Lemma subseq_map {A B : Type} (f : A -> B) (l1 l2 : list A) :
  Seq.subseq l1 l2 -> Seq.subseq (map f l1) (map f l2).
Proof.
  induction 1 as [| x l1 l2 H IH | x l1 l2 H IH]; cbn [map].
  - constructor.
  - apply Seq.subseq_skip. exact IH.
  - apply Seq.subseq_take. exact IH.
Qed.

Lemma subseq_incl {A : Type} (l1 l2 : list A) : Seq.subseq l1 l2 -> incl l1 l2.
Proof.
  induction 1 as [| x l1 l2 H IH | x l1 l2 H IH]; intros y Hy.
  - exact Hy.
  - right. exact (IH y Hy).
  - destruct Hy as [<- | Hy]; [left; reflexivity | right; exact (IH y Hy)].
Qed.

Lemma subseq_nodup {A : Type} (l1 l2 : list A) : Seq.subseq l1 l2 -> NoDup l2 -> NoDup l1.
Proof.
  induction 1 as [| x l1 l2 H IH | x l1 l2 H IH]; intro N.
  - constructor.
  - inversion N; subst. exact (IH H3).
  - inversion N as [| ? ? Hx N']; subst. constructor; [| exact (IH N')].
    intro Hin. apply Hx. exact (subseq_incl _ _ H x Hin).
Qed.

Fixpoint nodupb (l : list text) : bool :=
  match l with
  | [] => true
  | x :: l' => negb (existsb (text_eqb x) l') && nodupb l'
  end.

Lemma nodupb_NoDup (l : list text) : nodupb l = true -> NoDup l.
Proof.
  induction l as [| x l IH]; intro H; [constructor |].
  cbn [nodupb] in H. apply andb_true_iff in H as [H1 H2].
  constructor; [| exact (IH H2)]. intro Hin.
  assert (E : existsb (text_eqb x) l = true)
    by (apply existsb_exists; exists x; split; [exact Hin | apply ApplyRulesFacts.text_eqb_refl]).
  rewrite E in H1. discriminate H1.
Qed.

End LogFacts.

(** X13: the correction log of [apply_style_corrections] has one entry
    ["Applied rule: {pattern} -> {replacement}"] per rule of the first pass
    that changed the text: its (pattern, replacement) pairs are entries of
    the table, in table order, with no pattern twice and never one of the
    clinical patterns that the first pass skips. *)
Theorem apply_style_corrections_log (t : text) :
  let log := snd (Corrections.apply_style_corrections t) in
  Seq.subseq (map (fun e => (Corrections.le_pattern e, Corrections.le_replacement e)) log)
             (filter (fun e => negb (Corrections.clinical_kw (fst e))) Corrections.corrections_map) /\
  NoDup (map Corrections.le_pattern log) /\
  (forall e, In e log -> Corrections.clinical_kw (Corrections.le_pattern e) = false).
Proof.
  intro log.
  assert (Hs : Seq.subseq (map LogFacts.entry_pair log)
                 (filter (fun e => negb (Corrections.clinical_kw (fst e))) Corrections.corrections_map)).
  { unfold log, Corrections.apply_style_corrections.
    destruct (LogFacts.fold_log Corrections.corrections_map t [] t) as [s [E Hsub]].
    destruct (fold_left Corrections.first_pass_step Corrections.corrections_map (t, [], t))
      as [[ct corrs] t'].
    cbn [fst snd] in E |- *. rewrite E. exact Hsub. }
  split; [exact Hs | split].
  - assert (Hf : map Corrections.le_pattern log = map fst (map LogFacts.entry_pair log))
      by (rewrite map_map; reflexivity).
    rewrite Hf. apply (LogFacts.subseq_nodup _ _ (LogFacts.subseq_map fst _ _ Hs)).
    apply LogFacts.nodupb_NoDup. vm_compute. reflexivity.
  - intros e He. apply (in_map LogFacts.entry_pair) in He.
    apply (LogFacts.subseq_incl _ _ Hs) in He.
    apply filter_In in He as [_ Hk]. unfold LogFacts.entry_pair in Hk. cbn [fst] in Hk.
    destruct (Corrections.clinical_kw (Corrections.le_pattern e)); [discriminate Hk | reflexivity].
Qed.

Module ChunkFacts2.
Import Chunking.

Definition nonblank (s : text) : Prop := remove_ws s <> [].

Lemma nonblank_app_l (a b : text) : nonblank a -> nonblank (a ++ b).
Proof.
  unfold nonblank. rewrite ChunkingFacts.remove_ws_app. intros H E.
  apply app_eq_nil in E as [E _]. exact (H E).
Qed.

Lemma nonblank_strip (s : text) : nonempty (strip s) = true -> nonblank (strip s).
Proof.
  unfold strip. intro H. set (y := lstrip (rev (lstrip s))) in *.
  destruct y as [| c r] eqn:Ey; [discriminate H |].
  assert (Hc : is_space c = false) by exact (StripFacts.lstrip_head _ c r Ey).
  unfold nonblank, remove_ws. intro E.
  assert (Hin : In c (filter (fun c => negb (is_space c)) (rev (c :: r)))).
  { apply filter_In. split; [apply in_rev; rewrite rev_involutive; left; reflexivity |].
    rewrite Hc. reflexivity. }
  rewrite E in Hin. exact Hin.
Qed.

Lemma sentences_nonblank (t : text) : Forall nonblank (sentences t).
Proof.
  unfold sentences. apply Forall_forall. intros x Hx.
  apply in_map_iff in Hx as [s [<- Hs]]. apply filter_In in Hs as [_ Hs].
  exact (nonblank_strip s Hs).
Qed.

Lemma pair_up_nonblank (l : list text) : Forall nonblank l -> Forall nonblank (pair_up l).
Proof.
  assert (G : forall n l, (List.length l <= n)%nat -> Forall nonblank l -> Forall nonblank (pair_up l)).
  { induction n as [| n IH]; intros [| a [| b r]] Hl H; cbn [pair_up List.length] in *;
      try (constructor; fail); try lia; try exact H.
    inversion H as [| ? ? Ha Hr]; subst. inversion Hr as [| ? ? Hb Hr']; subst.
    constructor; [apply nonblank_app_l; exact Ha | apply IH; [lia | exact Hr']]. }
  intro H. exact (G (List.length l) l (le_n _) H).
Qed.

Lemma concat_nonblank (cur : list text) :
  nonempty_l cur = true -> Forall nonblank cur -> nonblank (List.concat cur).
Proof.
  destruct cur as [| x cur]; [discriminate |]. intros _ H. inversion H; subst.
  cbn [List.concat]. apply nonblank_app_l. assumption.
Qed.

Lemma chunk_loop_nonblank (n : nat) (ss chunks cur : list text) (cl : nat) :
  Forall nonblank ss -> Forall nonblank chunks -> Forall nonblank cur ->
  Forall nonblank (chunk_loop n ss chunks cur cl).
Proof.
  revert chunks cur cl. induction ss as [| s ss IH]; intros chunks cur cl Hs Hch Hcur; cbn [chunk_loop].
  - destruct (nonempty_l cur) eqn:E; [| exact Hch].
    apply Forall_app. split; [exact Hch | constructor; [exact (concat_nonblank cur E Hcur) | constructor]].
  - inversion Hs as [| ? ? Hs1 Hs2]; subst.
    destruct (n <? cl + List.length s)%nat.
    + apply IH; [exact Hs2 | | constructor; [exact Hs1 | constructor]].
      destruct (nonempty_l cur) eqn:E; [| exact Hch].
      apply Forall_app. split; [exact Hch | constructor; [exact (concat_nonblank cur E Hcur) | constructor]].
    + apply IH; [exact Hs2 | exact Hch |]. apply Forall_app. split; [exact Hcur | constructor; [exact Hs1 | constructor]].
Qed.

Lemma remove_ws_chunks (t : text) :
  remove_ws (List.concat (chunk_text t)) = remove_ws t.
Proof.
  unfold chunk_text, chunk_text_sized.
  rewrite ChunkingFacts.concat_chunk_loop. cbn [List.concat app].
  unfold full_sentences. rewrite ChunkingFacts.concat_pair_up. apply ChunkingFacts.remove_ws_sentences.
Qed.

End ChunkFacts2.

(** X14: every chunk of [chunk_text] contains a non-whitespace character,
    and [chunk_text] returns no chunk exactly when the text is all
    whitespace. *)
Theorem chunk_text_nonblank (t : text) :
  (forall c, In c (Chunking.chunk_text t) -> Chunking.remove_ws c <> []) /\
  (Chunking.chunk_text t = [] <-> Chunking.remove_ws t = []).
Proof.
  assert (NB : Forall ChunkFacts2.nonblank (Chunking.chunk_text t)).
  { apply ChunkFacts2.chunk_loop_nonblank; [| constructor | constructor].
    apply ChunkFacts2.pair_up_nonblank, ChunkFacts2.sentences_nonblank. }
  rewrite Forall_forall in NB. split; [exact NB |]. split.
  - intro E. rewrite <- ChunkFacts2.remove_ws_chunks, E. reflexivity.
  - intro E. rewrite <- ChunkFacts2.remove_ws_chunks in E.
    destruct (Chunking.chunk_text t) as [| c cs] eqn:Ec; [reflexivity |].
    exfalso. apply (NB c (or_introl eq_refl)). cbn [List.concat] in E.
    rewrite ChunkingFacts.remove_ws_app in E. apply app_eq_nil in E as [E _]. exact E.
Qed.

Module ScoreFacts.

Section Fold.
Variables A B : Type.
Variable sc : B -> nat.

Definition step : nat * A -> A * B -> nat * A :=
  fun '(m, b) '(c, ks) => let score := sc ks in if (m <? score)%nat then (score, c) else (m, b).

Lemma fold_best (l : list (A * B)) (m0 : nat) (b0 : A) :
  let '(m, b) := fold_left step l (m0, b0) in
  (m0 <= m)%nat /\ (forall c ks, In (c, ks) l -> (sc ks <= m)%nat) /\
  ((m = m0 /\ b = b0) \/
   exists pre ks post, l = pre ++ (b, ks) :: post /\ sc ks = m /\ (m0 < m)%nat /\
     forall c' ks', In (c', ks') pre -> (sc ks' < m)%nat).
Proof.
  revert m0 b0. induction l as [| [c ks] l IH]; intros m0 b0; cbn [fold_left].
  - split; [lia | split; [intros c ks [] | left; split; reflexivity]].
  - unfold step at 2. destruct (m0 <? sc ks)%nat eqn:E.
    + apply Nat.ltb_lt in E. specialize (IH (sc ks) c).
      destruct (fold_left step l (sc ks, c)) as [m b].
      destruct IH as [H1 [H2 H3]]. split; [lia | split].
      * intros c' ks' [Hx | Hx]; [injection Hx as <- <-; exact H1 | exact (H2 c' ks' Hx)].
      * right. destruct H3 as [[-> ->] | [pre [ks1 [post [Hl [Hs [Hlt Hpre]]]]]]].
        -- exists [], ks, l. split; [reflexivity | split; [reflexivity | split; [exact E | intros c' ks' []]]].
        -- exists ((c, ks) :: pre), ks1, post. rewrite Hl. split; [reflexivity |].
           split; [exact Hs | split; [lia |]].
           intros c' ks' [Hx | Hx]; [injection Hx as <- <-; exact Hlt | exact (Hpre c' ks' Hx)].
    + apply Nat.ltb_ge in E. specialize (IH m0 b0).
      destruct (fold_left step l (m0, b0)) as [m b].
      destruct IH as [H1 [H2 H3]]. split; [exact H1 | split].
      * intros c' ks' [Hx | Hx]; [injection Hx as <- <-; lia | exact (H2 c' ks' Hx)].
      * destruct H3 as [H3 | [pre [ks1 [post [Hl [Hs [Hlt Hpre]]]]]]]; [left; exact H3 |].
        right. exists ((c, ks) :: pre), ks1, post. rewrite Hl. split; [reflexivity |].
        split; [exact Hs | split; [exact Hlt |]].
        intros c' ks' [Hx | Hx]; [injection Hx as <- <-; lia | exact (Hpre c' ks' Hx)].
Qed.

End Fold.

Lemma fold_max_spec (l : list nat) (m0 : nat) :
  (m0 <= fold_left Nat.max l m0)%nat /\ (forall x, In x l -> (x <= fold_left Nat.max l m0)%nat) /\
  (fold_left Nat.max l m0 = m0 \/ In (fold_left Nat.max l m0) l).
Proof.
  revert m0. induction l as [| x l IH]; intro m0; cbn [fold_left].
  - split; [lia | split; [intros x [] | left; reflexivity]].
  - destruct (IH (Nat.max m0 x)) as [H1 [H2 H3]]. split; [lia | split].
    + intros y [<- | Hy]; [lia | exact (H2 y Hy)].
    + destruct H3 as [H3 | H3]; [| right; right; exact H3].
      rewrite H3. destruct (Nat.max_spec m0 x) as [[_ ->] | [_ ->]]; [right; left; reflexivity | left; reflexivity].
Qed.

Lemma find_scores {A B : Type} (g : B -> nat) (l : list (A * B)) (m : nat) (n : A) (s : nat) :
  List.find (fun x : A * nat => (snd x =? m)%nat) (map (fun '(n, ks) => (n, g ks)) l) = Some (n, s) ->
  exists pre ks post, l = pre ++ (n, ks) :: post /\ g ks = m /\
    forall n' ks', In (n', ks') pre -> g ks' <> m.
Proof.
  induction l as [| [a ks] l IH]; cbn [map List.find]; [discriminate |].
  cbn [snd]. destruct (g ks =? m)%nat eqn:E.
  - intro H. injection H as <- _. apply Nat.eqb_eq in E.
    exists [], ks, l. split; [reflexivity | split; [exact E | intros n' ks' []]].
  - intro H. destruct (IH H) as [pre [ks1 [post [Hl [Hg Hpre]]]]].
    exists ((a, ks) :: pre), ks1, post. rewrite Hl. split; [reflexivity | split; [exact Hg |]].
    intros n' ks' [Hx | Hx]; [injection Hx as <- <-; apply Nat.eqb_neq; exact E | exact (Hpre n' ks' Hx)].
Qed.

End ScoreFacts.

(** X15: [determine_rule_category] returns a category of highest keyword
    score (the number of its keywords found in the lowercased text): the
    first one of highest score in the table order when a keyword is found,
    FORMATTING when none is. *)
Theorem determine_rule_category_best (t : text) :
  let score := fun ks : list text =>
                 List.length (filter (fun kw => contains (lower t) (lower kw)) ks) in
  let res := Extractor.determine_rule_category t in
  exists pre ks post,
    Extractor.category_keywords = pre ++ (res, ks) :: post /\
    (forall c ks', In (c, ks') Extractor.category_keywords -> (score ks' <= score ks)%nat) /\
    (score ks = 0%nat -> res = Extractor.FORMATTING) /\
    (forall c ks', In (c, ks') pre -> (score ks' < score ks)%nat \/ score ks = 0%nat).
Proof.
  intros score res.
  pose proof (ScoreFacts.fold_best Extractor.RuleCategory (list text) score
                Extractor.category_keywords 0 Extractor.FORMATTING) as F.
  assert (Hres : res = snd (fold_left (ScoreFacts.step Extractor.RuleCategory (list text) score)
                             Extractor.category_keywords (0%nat, Extractor.FORMATTING))) by reflexivity.
  destruct (fold_left (ScoreFacts.step Extractor.RuleCategory (list text) score)
              Extractor.category_keywords (0%nat, Extractor.FORMATTING)) as [m b].
  cbn [snd] in Hres. subst b. destruct F as [_ [Hall [[-> ->] | [pre [ks [post [Hl [Hs [Hlt Hpre]]]]]]]]].
  - set (fks := snd (nth 3 Extractor.category_keywords (Extractor.FORMATTING, []))).
    assert (Hl : Extractor.category_keywords = firstn 3 Extractor.category_keywords
                   ++ (Extractor.FORMATTING, fks) :: skipn 4 Extractor.category_keywords)
      by (vm_compute; reflexivity).
    exists (firstn 3 Extractor.category_keywords), fks, (skipn 4 Extractor.category_keywords).
    assert (Hf : score fks = 0%nat).
    { assert (Hin : In (Extractor.FORMATTING, fks) Extractor.category_keywords)
        by (rewrite Hl; apply in_or_app; right; left; reflexivity).
      specialize (Hall _ _ Hin). lia. }
    split; [exact Hl |]. rewrite Hf.
    split; [exact Hall | split; [intros _; reflexivity | intros; right; reflexivity]].
  - exists pre, ks, post. rewrite Hs. split; [exact Hl |]. split; [exact Hall |].
    split; [intro; lia |]. intros c ks' H. left. exact (Hpre c ks' H).
Qed.

(** X16: [identify_rule_type] returns ["general"] exactly when no keyword
    of any rule type occurs in the lowercased text and section; otherwise
    it returns the first rule type of highest keyword score. *)
Theorem identify_rule_type_best (t section : text) :
  let tl := lower t ++ u " " ++ lower section in
  let score := fun ks : list text => List.length (filter (fun k => contains tl k) ks) in
  let res := GuideProcessor.identify_rule_type t section in
  (res = u "general" /\ forall n ks, In (n, ks) GuideProcessor.rule_types -> score ks = 0%nat) \/
  (exists pre ks post,
     GuideProcessor.rule_types = pre ++ (res, ks) :: post /\ (0 < score ks)%nat /\
     (forall n ks', In (n, ks') GuideProcessor.rule_types -> (score ks' <= score ks)%nat) /\
     (forall n ks', In (n, ks') pre -> (score ks' < score ks)%nat)).
Proof.
  intros tl score res. unfold res, GuideProcessor.identify_rule_type. fold tl.
  set (scores := map (fun '(n, ks) => (n, List.length (filter (fun k => contains tl k) ks)))
                   GuideProcessor.rule_types).
  set (mx := fold_left Nat.max (map snd scores) 0%nat).
  destruct (ScoreFacts.fold_max_spec (map snd scores) 0) as [_ [Hle Hor]]. fold mx in Hle, Hor.
  assert (Hsc : forall n ks, In (n, ks) GuideProcessor.rule_types -> (score ks <= mx)%nat).
  { intros n ks H. apply Hle. apply in_map_iff. exists (n, score ks). split; [reflexivity |].
    unfold scores. apply in_map_iff. exists (n, ks). split; [reflexivity | exact H]. }
  destruct (0 <? mx)%nat eqn:E.
  - apply Nat.ltb_lt in E.
    destruct (List.find (fun x : text * nat => (snd x =? mx)%nat) scores) as [[n s] |] eqn:Ef.
    + right. destruct (ScoreFacts.find_scores (fun ks => List.length (filter (fun k => contains tl k) ks))
                         GuideProcessor.rule_types mx n s Ef) as [pre [ks [post [Hl [Hg Hpre]]]]].
      assert (Hg' : score ks = mx) by exact Hg.
      assert (Hpre' : forall n' ks', In (n', ks') pre -> score ks' <> mx) by exact Hpre.
      clear Hg Hpre. rename Hg' into Hg. rename Hpre' into Hpre.
      exists pre, ks, post. rewrite Hg.
      split; [exact Hl | split; [exact E | split; [exact Hsc |]]].
      intros n' ks' H. assert (In (n', ks') GuideProcessor.rule_types)
        by (rewrite Hl; apply in_or_app; left; exact H).
      specialize (Hsc n' ks' H0). specialize (Hpre n' ks' H). lia.
    + exfalso. destruct Hor as [Hor | Hor]; [lia |].
      apply in_map_iff in Hor as [[n s] [Hs Hin]]. cbn [snd] in Hs.
      apply (find_none _ _ Ef) in Hin. cbn [snd] in Hin. rewrite Hs, Nat.eqb_refl in Hin. discriminate Hin.
  - left. apply Nat.ltb_ge in E. split; [reflexivity |]. intros n ks H. specialize (Hsc n ks H). lia.
Qed.

Module SessionFacts.
Import AppProcessor.

Lemma py_index_in {A : Type} (l : list A) (i : Z) (x : A) : py_index l i = Some x -> In x l.
Proof.
  unfold py_index. destruct (0 <=? i)%Z; [apply nth_error_In |].
  destruct (- Z.of_nat (List.length l) <=? i)%Z; [apply nth_error_In | discriminate].
Qed.

Lemma collect_matches_in (rules : list Extractor.Rule) (ch : list Corrections.log_entry) (hs : list Faiss.hit)
      (ms : list csr_match) :
  collect_matches rules ch hs = Some ms ->
  forall m, In m ms -> cm_changes m = ch /\ In (cm_rule m) rules /\ (cm_distance m < 100)%Q.
Proof.
  revert ms. induction hs as [| h hs IH]; intros ms E; cbn [collect_matches] in E.
  - injection E as <-. intros m [].
  - destruct (Faiss.dist_lt (Faiss.h_dist h) 100) eqn:Ed; [| exact (IH ms E)].
    destruct (py_index rules (Faiss.h_label h)) as [r |] eqn:Er; [| discriminate E].
    destruct (Faiss.h_dist h) as [d |] eqn:Ehd; [| discriminate E].
    destruct (collect_matches rules ch hs) as [ms' |]; [| discriminate E].
    injection E as <-. intros m [<- | Hm]; [| exact (IH ms' eq_refl m Hm)].
    cbn [cm_changes cm_rule cm_distance]. split; [reflexivity | split; [exact (py_index_in _ _ _ Er) |]].
    unfold Faiss.dist_lt in Ed. apply PipelineFacts.Qle_bool_false_lt.
    destruct (Qle_bool 100 d); [discriminate Ed | reflexivity].
Qed.

Lemma process_chunks_cons (encode : text -> Faiss.vec) (st : state) (c : text) (cs : list text) :
  process_chunks encode st (c :: cs)
  = match Corrections.apply_style_corrections c with
    | (ct, changes) =>
      match chunk_matches encode st c changes, process_chunks encode st cs with
      | Some ms, Some rs =>
          Some ({| cr_text := c; cr_corrected_text := ct; cr_matches := ms;
                   cr_changes := changes |} :: rs)
      | _, _ => None
      end
    end.
Proof. reflexivity. Qed.

Lemma process_chunks_spec (encode : text -> Faiss.vec) (st : state) (cs : list text)
      (rs : list csr_result) :
  process_chunks encode st cs = Some rs ->
  map cr_text rs = cs /\
  forall r, In r rs ->
    (cr_corrected_text r, cr_changes r) = Corrections.apply_style_corrections (cr_text r) /\
    forall m, In m (cr_matches r) ->
      cm_changes m = cr_changes r /\ In (cm_rule m) (style_rules st) /\ (cm_distance m < 100)%Q.
Proof.
  revert rs. induction cs as [| c cs IH]; intros rs E.
  - injection E as <-. split; [reflexivity | intros r []].
  - rewrite process_chunks_cons in E.
    destruct (Corrections.apply_style_corrections c) as [ct changes] eqn:Ec.
    destruct (chunk_matches encode st c changes) as [ms |] eqn:Em; [| discriminate E].
    destruct (process_chunks encode st cs) as [rs' |]; [| discriminate E].
    injection E as <-. destruct (IH rs' eq_refl) as [H1 H2].
    split; [cbn [map cr_text]; rewrite H1; reflexivity |].
    intros r [<- | Hr]; [| exact (H2 r Hr)].
    cbn [cr_corrected_text cr_changes cr_text cr_matches]. split; [symmetry; exact Ec |].
    unfold chunk_matches in Em. destruct (index st) as [idx |].
    + destruct (Faiss.search idx (encode c) (Nat.min 3 (List.length (style_rules st)))); [| discriminate Em].
      exact (collect_matches_in _ _ _ _ Em).
    + injection Em as <-. intros m [].
Qed.

End SessionFacts.

(** X17: the check of a document by [DocumentProcessor.process_csr], when
    it succeeds, gives one result per chunk of [chunk_text], in order; each
    result's corrected text and changes are those of
    [apply_style_corrections] on the chunk, and each of its matches is a
    stored style rule at distance below 100 carrying the chunk's changes. *)
Theorem process_csr_results (encode : text -> Faiss.vec) (extract : text -> text)
      (st : AppProcessor.state) (path : text) (rs : list AppProcessor.csr_result) :
  AppProcessor.process_csr encode extract st path = Some rs ->
  map AppProcessor.cr_text rs = Chunking.chunk_text (extract path) /\
  forall r, In r rs ->
    (AppProcessor.cr_corrected_text r, AppProcessor.cr_changes r)
      = Corrections.apply_style_corrections (AppProcessor.cr_text r) /\
    forall m, In m (AppProcessor.cr_matches r) ->
      AppProcessor.cm_changes m = AppProcessor.cr_changes r /\
      In (AppProcessor.cm_rule m) (AppProcessor.style_rules st) /\
      (AppProcessor.cm_distance m < 100)%Q.
Proof. apply SessionFacts.process_chunks_spec. Qed.

Lemma process_csr_results_witness :
  let d := u "The patient was enrolled." in
  let rs := [{| AppProcessor.cr_text := d;
                AppProcessor.cr_corrected_text := fst (Corrections.apply_style_corrections d);
                AppProcessor.cr_matches := [];
                AppProcessor.cr_changes := snd (Corrections.apply_style_corrections d) |}] in
  map AppProcessor.cr_text rs = Chunking.chunk_text d /\
  forall r, In r rs ->
    (AppProcessor.cr_corrected_text r, AppProcessor.cr_changes r)
      = Corrections.apply_style_corrections (AppProcessor.cr_text r) /\
    forall m, In m (AppProcessor.cr_matches r) ->
      AppProcessor.cm_changes m = AppProcessor.cr_changes r /\
      In (AppProcessor.cm_rule m) (AppProcessor.style_rules AppProcessor.init) /\
      (AppProcessor.cm_distance m < 100)%Q.
Proof.
  intros d rs.
  apply (process_csr_results (fun _ => []) (fun _ => d) AppProcessor.init (u "csr.docx") rs).
  vm_compute. reflexivity.
Defined.

(** X18: once an index exists, a later style guide from which no rule is
    extracted leaves that index in place but empties the rule list; every
    following [/upload/csr] of a valid DOCX whose text is not all
    whitespace then fails with HTTP 500, the search being asked for
    [min(3, 0) = 0] neighbours. *)
Theorem upload_csr_fails_after_ruleless_guide (encode : text -> Faiss.vec) (extract : text -> text)
      (st : AppProcessor.state) (cat : list (Extractor.RuleCategory * list Extractor.Rule))
      (idx : list Faiss.vec) (fn ct path : text) :
  Api.validate_docx fn ct = None ->
  flat_map snd cat = [] ->
  AppProcessor.index st = Some idx ->
  Chunking.remove_ws (extract path) <> [] ->
  Api.upload_csr encode extract
    {| Api.style_guide_processed := true;
       Api.doc_processor := AppProcessor.process_style_guide encode st cat |} fn ct path
  = inl {| Api.status_code := 500; Api.detail := u "Error processing file" |}.
Proof.
  intros V Hr Hi Hws. unfold Api.upload_csr. rewrite V. cbn [negb Api.style_guide_processed Api.doc_processor].
  unfold AppProcessor.process_csr.
  destruct (Chunking.chunk_text (extract path)) as [| c cs] eqn:Ec.
  - exfalso. apply Hws. rewrite <- ChunkFacts2.remove_ws_chunks, Ec. reflexivity.
  - cbn [AppProcessor.process_chunks].
    destruct (Corrections.apply_style_corrections c) as [ct' changes].
    unfold AppProcessor.chunk_matches, AppProcessor.process_style_guide. cbv zeta. rewrite Hr.
    cbn [map AppProcessor.index AppProcessor.style_rules List.length Nat.min]. rewrite Hi.
    reflexivity.
Qed.

Lemma upload_csr_fails_after_ruleless_guide_witness :
  let r := {| Extractor.r_pattern := u "patient"; Extractor.r_replacement := u "subject";
              Extractor.r_description := u "patient -> subject"; Extractor.r_examples := [];
              Extractor.r_type := Extractor.DIRECT; Extractor.r_category := Extractor.DOMAIN |} in
  let st := AppProcessor.process_style_guide (fun _ => [0%Q]) AppProcessor.init [(Extractor.DOMAIN, [r])] in
  Api.upload_csr (fun _ => [0%Q]) (fun _ => u "The patient was enrolled.")
    {| Api.style_guide_processed := true;
       Api.doc_processor := AppProcessor.process_style_guide (fun _ => [0%Q]) st [] |}
    (u "csr.docx") Api.docx_type (u "/tmp/csr.docx")
  = inl {| Api.status_code := 500; Api.detail := u "Error processing file" |}.
Proof.
  intros r st.
  apply (upload_csr_fails_after_ruleless_guide (fun _ => [0%Q]) (fun _ => u "The patient was enrolled.")
           st [] [[0%Q]] (u "csr.docx") Api.docx_type (u "/tmp/csr.docx")).
  - vm_compute. reflexivity.
  - reflexivity.
  - vm_compute. reflexivity.
  - vm_compute. discriminate.
Defined.
